(** * asciime: the rendering engine of [useAny2Ascii] and its helpers

    A shallow embedding of the hook [useAny2Ascii]
    (src/hooks/useAny2Ascii.ts), of [detectMediaType]
    (lib/media-utils) and of the media-type resolution of the [AsciiMe]
    component, followed by the properties of the engine.

    Conventions of the embedding.
    - A JavaScript [number] that holds a pixel count, a column count or a
      frame counter is a [Z]; a [number] that holds a measure (a time in
      milliseconds, a percentage, a font size) is a rational [Q].  The
      rounding of IEEE doubles is not modelled.
    - A React ref is a field of the hook state; [null] is [None].
    - The WebGL context is a record holding the GPU objects that exist
      (created and not deleted) and the log of the calls made on it.
    - [requestAnimationFrame] / [cancelAnimationFrame] act on the list of
      pending requests of the browser.
    - A callback of the hook is a function of the options that its
      closure holds; callbacks memoised under older options are outside
      the model. *)

From Stdlib Require Import ZArith QArith Qround Qabs Lqa List String Ascii Bool Lia Arith.
Import ListNotations.
Open Scope string_scope.
Open Scope list_scope.

(* ===================================================================== *)
(** ** lib/media-utils : [detectMediaType]                                *)
(* ===================================================================== *)

Module MediaUtils.

(** [export type MediaType = "video" | "image"] *)
Inductive MediaType : Type := Video | Image.

Definition MediaType_eqb (a b : MediaType) : bool :=
  match a, b with
  | Video, Video | Image, Image => true
  | _, _ => false
  end.

(** [String.prototype.split] with a one-character separator.  The
    result is never empty: ["".split(sep)] is [[""]]. *)
Fixpoint split (sep : ascii) (s : string) : list string :=
  match s with
  | EmptyString => [EmptyString]
  | String c rest =>
      if Ascii.eqb c sep then EmptyString :: split sep rest
      else match split sep rest with
           | [] => [String c EmptyString]
           | h :: t => String c h :: t
           end
  end.

(** One character of [String.prototype.toLowerCase]: the letters
    [A]..[Z] move to [a]..[z], every other code stays.  A string holds
    the code units of the source; no character outside ASCII has a lower
    case made of the letters of the six image extensions. *)
Definition lower_char (c : ascii) : ascii :=
  let n := nat_of_ascii c in
  if (65 <=? n)%nat && (n <=? 90)%nat then ascii_of_nat (n + 32) else c.

Fixpoint toLowerCase (s : string) : string :=
  match s with
  | EmptyString => EmptyString
  | String c rest => String (lower_char c) (toLowerCase rest)
  end.

(** [const imageExtensions = ["jpg", "jpeg", "png", "webp", "bmp", "svg"]] *)
Definition imageExtensions : list string :=
  ["jpg"; "jpeg"; "png"; "webp"; "bmp"; "svg"].

(** [Array.prototype.includes] on strings. *)
Definition includes (l : list string) (x : string) : bool :=
  existsb (String.eqb x) l.

(** [src.split("?")[0]] *)
Definition urlParts (src : string) : string :=
  hd EmptyString (split "?" src).

(** [urlParts.split(".").pop()?.toLowerCase()]; [pop] of the
    non-empty array is its last element. *)
Definition extension (src : string) : string :=
  toLowerCase (last (split "." (urlParts src)) EmptyString).

Definition detectMediaType (src : string) : MediaType :=
  match src with
  | EmptyString => Video                         (* if (!src) return "video" *)
  | _ => if includes imageExtensions (extension src) then Image else Video
  end.

(** The words of the spec, "auto-detected by file extension": [ext] is
    the file extension of [src] when [src] is [stem ++ ext ++ rest],
    where [rest] is empty or a query string that begins at the first
    ["?"], and [ext] is the last component between dots of what comes
    before (all of it when it has no dot). *)
Fixpoint occurs (c : ascii) (s : string) : bool :=
  match s with
  | EmptyString => false
  | String c' rest => Ascii.eqb c' c || occurs c rest
  end.

Definition has_extension (src ext : string) : Prop :=
  exists stem rest : string,
    src = (stem ++ ext ++ rest)%string /\
    occurs "?" stem = false /\
    (stem = EmptyString \/ exists p, stem = (p ++ ".")%string) /\
    occurs "." ext = false /\ occurs "?" ext = false /\
    (rest = EmptyString \/ exists q, rest = String "?" q).

(** [mediaType || detectMediaType(src)] of the [AsciiMe] component; an
    unspecified [mediaType] prop is [None]. *)
Definition resolvedMediaType (mediaType : option MediaType) (src : string)
  : MediaType :=
  match mediaType with
  | Some t => t
  | None => detectMediaType src
  end.

End MediaUtils.

(* ===================================================================== *)
(** ** lib/webgl : grid sizing                                            *)
(* ===================================================================== *)

Module Grid.

(** [{ cols, rows }] *)
Record GridDimensions : Type := { cols : Z; rows : Z }.

(** [Math.round]: the nearest integer, halves rounded up. *)
Definition js_round (x : Q) : Z := Qfloor (x + (1 # 2)).

(** The aspect-preserving number of rows before rounding. *)
Definition idealRows (cellAspect : Q) (mediaW mediaH targetColumns : Z) : Q :=
  inject_Z targetColumns * (inject_Z mediaH / inject_Z mediaW) / cellAspect.

(** Modelled from the spec: [calculateGridDimensions] is imported from
    [@/lib/webgl], which is not among the sources; only its call in
    [initWebGL] is.  Spec 4.1: "rows = round(targetColumns *
    (mediaH/mediaW) / characterCellAspectRatio), clamped to >= 1", and
    columns are the target columns.  The character cell aspect ratio is
    a constant of the missing library and is taken as a parameter. *)
Definition calculateGridDimensions (cellAspect : Q)
    (mediaW mediaH targetColumns : Z) : GridDimensions :=
  {| cols := targetColumns;
     rows := Z.max 1 (js_round (idealRows cellAspect mediaW mediaH targetColumns)) |}.

End Grid.

(* ===================================================================== *)
(** ** The WebGL2 context                                                 *)
(* ===================================================================== *)

Module WebGL.

(** GPU objects are named by the handle the context gave them. *)
Definition WebGLShader : Type := nat.
Definition WebGLProgram : Type := nat.
Definition WebGLTexture : Type := nat.

Inductive ShaderStage : Type := VERTEX_SHADER | FRAGMENT_SHADER.

Inductive GLObject : Type :=
| ShaderObj (h : WebGLShader)
| ProgramObj (h : WebGLProgram)
| TextureObj (h : WebGLTexture)
| BufferObj (h : nat).

Definition GLObject_eqb (a b : GLObject) : bool :=
  match a, b with
  | ShaderObj x, ShaderObj y
  | ProgramObj x, ProgramObj y
  | TextureObj x, TextureObj y
  | BufferObj x, BufferObj y => Nat.eqb x y
  | _, _ => false
  end.

(** [type UniformSetter = (gl, program, locations) => void].  A
    callback is an opaque closure, compared by identity in JavaScript:
    it is a natural number here, and calling it leaves the entry
    [CallSetter] in the log of the context. *)
Definition UniformSetter : Type := nat.

(** The calls the hook makes on the context.  A uniform location is
    named by the uniform it was resolved from. *)
Inductive GLCall : Type :=
| UseProgram (p : WebGLProgram)
| ActiveTexture (unit : nat)
| BindTexture (t : option WebGLTexture)
| TexImage2D (w h : Z)
| TexSubImage2D
| TexParameteri (pname value : string)
| GenerateMipmap
| Uniform1i (name : string) (v : Z)
| Uniform1f (name : string) (v : Q)
| Uniform2f (name : string) (x y : Q)
| Viewport (w h : Q)
| CallSetter (f : UniformSetter) (p : WebGLProgram)
| DrawArrays (first count : nat)
| DeleteTexture (t : WebGLTexture)
| DeleteProgram (p : WebGLProgram).

(** The context of the canvas: the objects that exist, the next free
    handle, the log of calls, and what the driver answers when a shader
    is compiled or a program linked. *)
Record Context : Type := {
  objects : list GLObject;
  nextHandle : nat;
  calls : list GLCall;
  vertexCompiles : bool;
  fragmentCompiles : bool;
  programLinks : bool
}.

Definition with_objects (os : list GLObject) (n : nat) (g : Context) : Context :=
  {| objects := os; nextHandle := n; calls := calls g;
     vertexCompiles := vertexCompiles g; fragmentCompiles := fragmentCompiles g;
     programLinks := programLinks g |}.

(** One call, appended to the log. *)
Definition call (c : GLCall) (g : Context) : Context :=
  {| objects := objects g; nextHandle := nextHandle g; calls := calls g ++ [c];
     vertexCompiles := vertexCompiles g; fragmentCompiles := fragmentCompiles g;
     programLinks := programLinks g |}.

Definition call_all (cs : list GLCall) (g : Context) : Context :=
  fold_left (fun g c => call c g) cs g.

(** [gl.createShader] / [createProgram] / [createTexture] /
    [createBuffer]: a fresh object. *)
Definition create (mk : nat -> GLObject) (g : Context) : nat * Context :=
  (nextHandle g, with_objects (mk (nextHandle g) :: objects g) (S (nextHandle g)) g).

Definition remove (o : GLObject) (g : Context) : Context :=
  with_objects (filter (fun x => negb (GLObject_eqb x o)) (objects g)) (nextHandle g) g.

(** [gl.deleteTexture(t)] and [gl.deleteProgram(p)] *)
Definition deleteTexture (t : WebGLTexture) (g : Context) : Context :=
  call (DeleteTexture t) (remove (TextureObj t) g).

Definition deleteProgram (p : WebGLProgram) (g : Context) : Context :=
  call (DeleteProgram p) (remove (ProgramObj p) g).

Definition compiles (stage : ShaderStage) (g : Context) : bool :=
  match stage with
  | VERTEX_SHADER => vertexCompiles g
  | FRAGMENT_SHADER => fragmentCompiles g
  end.

(** Modelled from the spec: [compileShader], [createProgram],
    [createFullscreenQuad], [createVideoTexture] and [createAsciiAtlas]
    are functions of [@/lib/webgl], which is not among the sources.
    Spec 4.3: initialisation "compiles vertex+fragment stages from fixed
    source, links one program, builds one static fullscreen quad,
    allocates one media texture, builds one character atlas texture",
    and fails when "shader compilation fails, or program linking
    fails".  Each helper creates the one object it is named after; a
    helper that fails returns [null] and leaves no object behind. *)
Definition compileShader (stage : ShaderStage) (g : Context)
  : option WebGLShader * Context :=
  if compiles stage g
  then let '(h, g') := create ShaderObj g in (Some h, g')
  else (None, g).

Definition createProgram (vs fs : WebGLShader) (g : Context)
  : option WebGLProgram * Context :=
  if programLinks g
  then let '(h, g') := create ProgramObj g in (Some h, g')
  else (None, g).

Definition createFullscreenQuad (p : WebGLProgram) (g : Context) : Context :=
  snd (create BufferObj g).

Definition createVideoTexture (g : Context) : WebGLTexture * Context :=
  create TextureObj g.

Definition createAsciiAtlas (chars : list string) (fontSize : Q) (g : Context)
  : WebGLTexture * Context :=
  create TextureObj g.

(** [type UniformLocations]: the locations cached by
    [cacheUniformLocations(gl, program)], valid for that program. *)
Record UniformLocations : Type := { loc_program : WebGLProgram }.

(** The draw calls in a log. *)
Definition is_draw (c : GLCall) : bool :=
  match c with DrawArrays _ _ => true | _ => false end.

Definition drawCount (g : Context) : nat :=
  List.length (filter is_draw (calls g)).

End WebGL.

(* ===================================================================== *)
(** ** hooks/useAny2Ascii : state of the hook                            *)
(* ===================================================================== *)

Module Hook.
Import MediaUtils Grid WebGL.

(** *** The elements behind the DOM refs *)

Record HTMLVideoElement : Type := {
  videoWidth : Z; videoHeight : Z;
  paused : bool; ended : bool;
  readyState : Z
}.

Record HTMLImageElement : Type := {
  naturalWidth : Z; naturalHeight : Z; complete : bool
}.

(** [webgl2] tells whether [getContext("webgl2")] gives a context. *)
Record HTMLCanvasElement : Type := {
  width : Q; height : Q; webgl2 : bool
}.

Record HTMLDivElement : Type := { clientWidth : Z }.

Record Dom : Type := {
  containerRef : option HTMLDivElement;
  videoRef : option HTMLVideoElement;
  imageRef : option HTMLImageElement;
  canvasRef : option HTMLCanvasElement
}.

(** *** [UseAny2AsciiOptions], defaults applied

    [chars] is [getCharArray(charset)], resolved by the missing
    charset table; [onStats] tells whether the callback is supplied;
    [innerWidth] is [window.innerWidth] when there is a window. *)
Record Options : Type := {
  fontSize : option Q;
  numColumns : option Z;
  colored : bool;
  blend : Q;
  highlight : Q;
  brightness : Q;
  dither : string;
  chars : list string;
  maxWidth : option Q;
  enableSpacebarToggle : bool;
  onStats : bool;
  mediaType : MediaType;
  innerWidth : option Q
}.

(** [type AsciiStats = { fps, frameTime }] *)
Record AsciiStats : Type := { fps : Z; frameTime : Q }.

(** *** Refs and state *)

(** [glRef] holds the context of the canvas or [null]: a canvas has one
    context, which [getContext] returns at every call. *)
Record GpuRefs : Type := {
  glRef : bool;
  programRef : option WebGLProgram;
  videoTextureRef : option WebGLTexture;
  atlasTextureRef : option WebGLTexture;
  uniformLocationsRef : option UniformLocations;
  needsMipmapUpdateRef : bool
}.

Record StatsRefs : Type := {
  frameCountRef : Z;
  frameTimesRef : list Q;
  lastFpsTimeRef : Q
}.

Record ReactState : Type := {
  dimensions : GridDimensions;
  stats : AsciiStats;
  isReady : bool;
  isPlaying : bool
}.

(** What lives outside the hook: the context of the canvas, the frame
    requests that are pending, and the snapshots handed to [setStats]
    (and to [onStats] when it is supplied). *)
Record Browser : Type := {
  gl : Context;
  pendingFrames : list nat;
  nextFrameId : nat;
  emittedStats : list AsciiStats
}.

(** [uniformSettersRef] is a [Map<string, UniformSetter>]: an
    association list in insertion order, which is the order of
    [Map.prototype.values]. *)
Record Hook : Type := {
  dom : Dom;
  gpu : GpuRefs;
  bench : StatsRefs;
  react : ReactState;
  uniformSettersRef : list (string * UniformSetter);
  animationRef : nat;
  browser : Browser
}.

(** *** Field updates *)

Definition with_dom (d : Dom) (s : Hook) : Hook :=
  {| dom := d; gpu := gpu s; bench := bench s; react := react s;
     uniformSettersRef := uniformSettersRef s; animationRef := animationRef s;
     browser := browser s |}.
Definition with_gpu (r : GpuRefs) (s : Hook) : Hook :=
  {| dom := dom s; gpu := r; bench := bench s; react := react s;
     uniformSettersRef := uniformSettersRef s; animationRef := animationRef s;
     browser := browser s |}.
Definition with_bench (b : StatsRefs) (s : Hook) : Hook :=
  {| dom := dom s; gpu := gpu s; bench := b; react := react s;
     uniformSettersRef := uniformSettersRef s; animationRef := animationRef s;
     browser := browser s |}.
Definition with_react (r : ReactState) (s : Hook) : Hook :=
  {| dom := dom s; gpu := gpu s; bench := bench s; react := r;
     uniformSettersRef := uniformSettersRef s; animationRef := animationRef s;
     browser := browser s |}.
Definition with_setters (m : list (string * UniformSetter)) (s : Hook) : Hook :=
  {| dom := dom s; gpu := gpu s; bench := bench s; react := react s;
     uniformSettersRef := m; animationRef := animationRef s;
     browser := browser s |}.
Definition with_animationRef (n : nat) (s : Hook) : Hook :=
  {| dom := dom s; gpu := gpu s; bench := bench s; react := react s;
     uniformSettersRef := uniformSettersRef s; animationRef := n;
     browser := browser s |}.
Definition with_browser (b : Browser) (s : Hook) : Hook :=
  {| dom := dom s; gpu := gpu s; bench := bench s; react := react s;
     uniformSettersRef := uniformSettersRef s; animationRef := animationRef s;
     browser := b |}.

Definition set_glRef (v : bool) (s : Hook) : Hook :=
  with_gpu {| glRef := v; programRef := programRef (gpu s);
              videoTextureRef := videoTextureRef (gpu s);
              atlasTextureRef := atlasTextureRef (gpu s);
              uniformLocationsRef := uniformLocationsRef (gpu s);
              needsMipmapUpdateRef := needsMipmapUpdateRef (gpu s) |} s.
Definition set_programRef (v : option WebGLProgram) (s : Hook) : Hook :=
  with_gpu {| glRef := glRef (gpu s); programRef := v;
              videoTextureRef := videoTextureRef (gpu s);
              atlasTextureRef := atlasTextureRef (gpu s);
              uniformLocationsRef := uniformLocationsRef (gpu s);
              needsMipmapUpdateRef := needsMipmapUpdateRef (gpu s) |} s.
Definition set_videoTextureRef (v : option WebGLTexture) (s : Hook) : Hook :=
  with_gpu {| glRef := glRef (gpu s); programRef := programRef (gpu s);
              videoTextureRef := v;
              atlasTextureRef := atlasTextureRef (gpu s);
              uniformLocationsRef := uniformLocationsRef (gpu s);
              needsMipmapUpdateRef := needsMipmapUpdateRef (gpu s) |} s.
Definition set_atlasTextureRef (v : option WebGLTexture) (s : Hook) : Hook :=
  with_gpu {| glRef := glRef (gpu s); programRef := programRef (gpu s);
              videoTextureRef := videoTextureRef (gpu s);
              atlasTextureRef := v;
              uniformLocationsRef := uniformLocationsRef (gpu s);
              needsMipmapUpdateRef := needsMipmapUpdateRef (gpu s) |} s.
Definition set_uniformLocationsRef (v : option UniformLocations) (s : Hook) : Hook :=
  with_gpu {| glRef := glRef (gpu s); programRef := programRef (gpu s);
              videoTextureRef := videoTextureRef (gpu s);
              atlasTextureRef := atlasTextureRef (gpu s);
              uniformLocationsRef := v;
              needsMipmapUpdateRef := needsMipmapUpdateRef (gpu s) |} s.
Definition set_needsMipmapUpdateRef (v : bool) (s : Hook) : Hook :=
  with_gpu {| glRef := glRef (gpu s); programRef := programRef (gpu s);
              videoTextureRef := videoTextureRef (gpu s);
              atlasTextureRef := atlasTextureRef (gpu s);
              uniformLocationsRef := uniformLocationsRef (gpu s);
              needsMipmapUpdateRef := v |} s.

Definition setDimensions (g : GridDimensions) (s : Hook) : Hook :=
  with_react {| dimensions := g; stats := stats (react s);
                isReady := isReady (react s); isPlaying := isPlaying (react s) |} s.
Definition setIsReady (v : bool) (s : Hook) : Hook :=
  with_react {| dimensions := dimensions (react s); stats := stats (react s);
                isReady := v; isPlaying := isPlaying (react s) |} s.
Definition setIsPlaying (v : bool) (s : Hook) : Hook :=
  with_react {| dimensions := dimensions (react s); stats := stats (react s);
                isReady := isReady (react s); isPlaying := v |} s.

(** [setStats(newStats); onStats?.(newStats)] *)
Definition setStats (v : AsciiStats) (s : Hook) : Hook :=
  with_browser {| gl := gl (browser s); pendingFrames := pendingFrames (browser s);
                  nextFrameId := nextFrameId (browser s);
                  emittedStats := emittedStats (browser s) ++ [v] |}
    (with_react {| dimensions := dimensions (react s); stats := v;
                   isReady := isReady (react s); isPlaying := isPlaying (react s) |} s).

(** A step of the context, seen from the hook. *)
Definition on_gl (f : Context -> Context) (s : Hook) : Hook :=
  with_browser {| gl := f (gl (browser s)); pendingFrames := pendingFrames (browser s);
                  nextFrameId := nextFrameId (browser s);
                  emittedStats := emittedStats (browser s) |} s.

Definition set_canvas (c : HTMLCanvasElement) (s : Hook) : Hook :=
  with_dom {| containerRef := containerRef (dom s); videoRef := videoRef (dom s);
              imageRef := imageRef (dom s); canvasRef := Some c |} s.
Definition set_video (v : option HTMLVideoElement) (s : Hook) : Hook :=
  with_dom {| containerRef := containerRef (dom s); videoRef := v;
              imageRef := imageRef (dom s); canvasRef := canvasRef (dom s) |} s.
Definition set_image (i : option HTMLImageElement) (s : Hook) : Hook :=
  with_dom {| containerRef := containerRef (dom s); videoRef := videoRef (dom s);
              imageRef := i; canvasRef := canvasRef (dom s) |} s.
Definition set_container (c : option HTMLDivElement) (s : Hook) : Hook :=
  with_dom {| containerRef := c; videoRef := videoRef (dom s);
              imageRef := imageRef (dom s); canvasRef := canvasRef (dom s) |} s.

(** *** The browser's frame requests *)

(** [animationRef.current = requestAnimationFrame(render)]: every
    request of the hook passes [render] and stores the id. *)
Definition requestAnimationFrame (s : Hook) : Hook :=
  let id := nextFrameId (browser s) in
  with_animationRef id
    (with_browser {| gl := gl (browser s);
                     pendingFrames := pendingFrames (browser s) ++ [id];
                     nextFrameId := S id;
                     emittedStats := emittedStats (browser s) |} s).

(** [cancelAnimationFrame(animationRef.current)] *)
Definition cancelAnimationFrame (s : Hook) : Hook :=
  with_browser {| gl := gl (browser s);
                  pendingFrames :=
                    filter (fun id => negb (Nat.eqb id (animationRef s)))
                           (pendingFrames (browser s));
                  nextFrameId := nextFrameId (browser s);
                  emittedStats := emittedStats (browser s) |} s.

Definition clearPending (s : Hook) : Hook :=
  with_browser {| gl := gl (browser s); pendingFrames := [];
                  nextFrameId := nextFrameId (browser s);
                  emittedStats := emittedStats (browser s) |} s.

(** *** The uniform registry *)

(** [Map.prototype.set]: an existing key keeps its place and takes the
    new value, a new key goes last. *)
Fixpoint map_set (k : string) (v : UniformSetter) (m : list (string * UniformSetter))
  : list (string * UniformSetter) :=
  match m with
  | [] => [(k, v)]
  | (k', v') :: rest =>
      if String.eqb k' k then (k, v) :: rest else (k', v') :: map_set k v rest
  end.

(** [Map.prototype.delete] *)
Definition map_delete (k : string) (m : list (string * UniformSetter))
  : list (string * UniformSetter) :=
  filter (fun e => negb (String.eqb (fst e) k)) m.

(** [Map.prototype.get] *)
Fixpoint map_get (k : string) (m : list (string * UniformSetter)) : option UniformSetter :=
  match m with
  | [] => None
  | (k', v) :: rest => if String.eqb k' k then Some v else map_get k rest
  end.

(** [Map.prototype.values] and [size] *)
Definition map_values (m : list (string * UniformSetter)) : list UniformSetter :=
  map snd m.
Definition map_size (m : list (string * UniformSetter)) : nat := List.length m.

Definition registerUniformSetter (id : string) (setter : UniformSetter) (s : Hook) : Hook :=
  with_setters (map_set id setter (uniformSettersRef s)) s.

Definition unregisterUniformSetter (id : string) (s : Hook) : Hook :=
  with_setters (map_delete id (uniformSettersRef s)) s.

(** *** Truthiness *)

(** [x || d] on an optional number: [undefined] and [0] are falsy. *)
Definition orQ (x : option Q) (d : Q) : Q :=
  match x with
  | Some v => if Qeq_bool v 0 then d else v
  | None => d
  end.

Definition truthyZ (x : option Z) : option Z :=
  match x with
  | Some v => if Z.eqb v 0 then None else Some v
  | None => None
  end.

Definition isSome {A : Type} (x : option A) : bool :=
  match x with Some _ => true | None => false end.

(** *** Per-frame work *)

(** The three readings of [performance.now()] that one [render] makes. *)
Record FrameClock : Type := { frameStart : Q; frameEnd : Q; now : Q }.

(** "Update uniforms that can change each frame" *)
Definition frameUniforms (o : Options) : list GLCall :=
  [ Uniform1i "u_colored" (if colored o then 1 else 0)%Z;
    Uniform1f "u_blend" (blend o / 100);
    Uniform1f "u_highlight" (highlight o / 100);
    Uniform1f "u_brightness" (brightness o) ].

(** [for (const setter of uniformSettersRef.current.values())
       setter(gl, program, locations)] *)
Definition callSetters (program : WebGLProgram) (s : Hook) : list GLCall :=
  map (fun f => CallSetter f program) (map_values (uniformSettersRef s)).

(** "Track performance" and "Update FPS counter every second" *)
Definition sumTimes (l : list Q) : Q := fold_left Qplus l 0%Q.

Definition pushFrameTime (t : Q) (l : list Q) : list Q :=
  let l' := l ++ [t] in
  if (60 <? List.length l')%nat then tl l' else l'.

Definition trackPerformance (t : FrameClock) (s : Hook) : Hook :=
  let count := (frameCountRef (bench s) + 1)%Z in
  let times := pushFrameTime (frameEnd t - frameStart t) (frameTimesRef (bench s)) in
  if Qle_bool 1000 (now t - lastFpsTimeRef (bench s)) then
    let avgFrameTime := sumTimes times / inject_Z (Z.of_nat (List.length times)) in
    let newStats := {| fps := count; frameTime := avgFrameTime |} in
    with_bench {| frameCountRef := 0; frameTimesRef := times;
                  lastFpsTimeRef := now t |}
      (setStats newStats s)
  else
    with_bench {| frameCountRef := count; frameTimesRef := times;
                  lastFpsTimeRef := lastFpsTimeRef (bench s) |} s.

Definition mediaElementPresent (o : Options) (s : Hook) : bool :=
  match mediaType o with
  | Video => isSome (videoRef (dom s))
  | Image => isSome (imageRef (dom s))
  end.

(** [mediaType === "video" && video && (video.paused || video.ended)] *)
Definition videoStopped (o : Options) (s : Hook) : bool :=
  match mediaType o, videoRef (dom s) with
  | Video, Some v => paused v || ended v
  | _, _ => false
  end.

(** [render]: one tick of the loop. *)
Definition render (o : Options) (t : FrameClock) (s : Hook) : Hook :=
  match glRef (gpu s), programRef (gpu s), uniformLocationsRef (gpu s) with
  | true, Some program, Some locations =>
      if negb (mediaElementPresent o s) then s
      else if videoStopped o s then s
      else
        let s1 := on_gl (call_all [ ActiveTexture 0;
                                    BindTexture (videoTextureRef (gpu s));
                                    TexSubImage2D ]) s in
        let s2 := if MediaType_eqb (mediaType o) Video
                     && needsMipmapUpdateRef (gpu s1)
                  then set_needsMipmapUpdateRef false
                         (on_gl (call GenerateMipmap) s1)
                  else s1 in
        let s3 := on_gl (call_all ([ ActiveTexture 1;
                                     BindTexture (atlasTextureRef (gpu s2)) ]
                                   ++ frameUniforms o
                                   ++ callSetters program s2
                                   ++ [ DrawArrays 0 6 ])) s2 in
        requestAnimationFrame (trackPerformance t s3)
  | _, _, _ => s
  end.

(** [renderFrame]: the single frame of an image. *)
Definition renderFrame (o : Options) (s : Hook) : Hook :=
  match glRef (gpu s), imageRef (dom s),
        programRef (gpu s), uniformLocationsRef (gpu s) with
  | true, Some image, Some program, Some locations =>
      let s1 := on_gl (call_all [ ActiveTexture 0;
                                  BindTexture (videoTextureRef (gpu s));
                                  TexSubImage2D ]) s in
      let s2 := if needsMipmapUpdateRef (gpu s1)
                then set_needsMipmapUpdateRef false
                       (on_gl (call GenerateMipmap) s1)
                else s1 in
      on_gl (call_all ([ ActiveTexture 1;
                         BindTexture (atlasTextureRef (gpu s2)) ]
                       ++ frameUniforms o
                       ++ callSetters program s2
                       ++ [ DrawArrays 0 6 ])) s2
  | _, _, _, _ => s
  end.

(** *** Initialisation *)

Section WithLibrary.

(** Constants of [@/lib/webgl], which is not among the sources. *)
Variable CHAR_WIDTH_RATIO : Q.
Variable CELL_ASPECT : Q.

Definition defaultWidth (o : Options) : Q :=
  match innerWidth o with Some w => w | None => 900 end.

Definition calculatedFontSize (o : Options) : Q :=
  match truthyZ (numColumns o) with
  | Some n => orQ (maxWidth o) (defaultWidth o) / (inject_Z n * CHAR_WIDTH_RATIO)
  | None => orQ (fontSize o) 10
  end.

(** [dither === "bayer" ? 1 : dither === "random" ? 2 : 0] *)
Definition ditherModeValue (o : Options) : Q :=
  if String.eqb (dither o) "bayer" then 1
  else if String.eqb (dither o) "random" then 2
  else 0.

(** The media is there and decoded: the three early returns of
    [initWebGL] that follow the reading of the refs. *)
Definition mediaLoaded (o : Options) (s : Hook) : bool :=
  match mediaType o with
  | Video => match videoRef (dom s) with
             | Some v => negb (Z.eqb (videoWidth v) 0)
             | None => false
             end
  | Image => match imageRef (dom s) with
             | Some i => negb (Z.eqb (naturalWidth i) 0) && complete i
             | None => false
             end
  end.

Definition mediaWidth (o : Options) (s : Hook) : Z :=
  match mediaType o, videoRef (dom s) with
  | Video, Some v => videoWidth v
  | _, _ => match imageRef (dom s) with Some i => naturalWidth i | None => 0 end
  end.

Definition mediaHeight (o : Options) (s : Hook) : Z :=
  match mediaType o, videoRef (dom s) with
  | Video, Some v => videoHeight v
  | _, _ => match imageRef (dom s) with Some i => naturalHeight i | None => 0 end
  end.

(** The uniforms written once per initialisation. *)
Definition staticUniforms (o : Options) (pixelWidth pixelHeight
    finalCharWidth finalFontSize : Q) (finalCols gridRows : Z) : list GLCall :=
  [ Uniform1i "u_video" 0;
    Uniform1i "u_asciiAtlas" 1;
    Uniform2f "u_resolution" pixelWidth pixelHeight;
    Uniform2f "u_charSize" finalCharWidth finalFontSize;
    Uniform2f "u_gridSize" (inject_Z finalCols) (inject_Z gridRows);
    Uniform1f "u_numChars" (inject_Z (Z.of_nat (List.length (chars o))));
    Uniform1f "u_brightness" (brightness o);
    Uniform1f "u_ditherMode" (ditherModeValue o);
    Uniform2f "u_mouse" (-1) (-1);
    Uniform1f "u_mouseRadius" 0;
    Uniform1i "u_trailLength" 0;
    Uniform1f "u_rippleEnabled" 0;
    Uniform1f "u_audioLevel" 0;
    Uniform1f "u_audioReactivity" 0;
    Uniform1f "u_audioSensitivity" 0;
    Viewport pixelWidth pixelHeight ].

(** The part of [initWebGL] that follows the linking of the program,
    up to [setIsReady(true)]. *)
Definition setupSession (o : Options) (program : WebGLProgram)
    (mediaWidth mediaHeight : Z)
    (finalCols : Z) (finalFontSize : Q) (grid : GridDimensions) (s : Hook) : Hook :=
  let finalCharWidth := finalFontSize * CHAR_WIDTH_RATIO in
  let pixelWidth := inject_Z (cols grid) * finalCharWidth in
  let pixelHeight := inject_Z (rows grid) * finalFontSize in
  let s := set_programRef (Some program) s in
  let s := on_gl (call (UseProgram program)) s in
  let s := on_gl (createFullscreenQuad program) s in
  let s := match videoTextureRef (gpu s) with
           | Some _ => s
           | None => let '(t, g) := createVideoTexture (gl (browser s)) in
                     set_videoTextureRef (Some t) (on_gl (fun _ => g) s)
           end in
  let s := on_gl (call_all [ BindTexture (videoTextureRef (gpu s));
                             TexImage2D mediaWidth mediaHeight ]) s in
  let s := match mediaType o with
           | Video => set_needsMipmapUpdateRef true
                        (on_gl (call (TexParameteri "TEXTURE_MIN_FILTER"
                                                    "LINEAR_MIPMAP_LINEAR")) s)
           | Image => set_needsMipmapUpdateRef false
                        (on_gl (call (TexParameteri "TEXTURE_MIN_FILTER" "LINEAR")) s)
           end in
  let s := on_gl (call_all [ TexParameteri "TEXTURE_MAG_FILTER" "LINEAR";
                             TexParameteri "TEXTURE_WRAP_S" "CLAMP_TO_EDGE";
                             TexParameteri "TEXTURE_WRAP_T" "CLAMP_TO_EDGE" ]) s in
  let s := let '(t, g) := createAsciiAtlas (chars o) finalFontSize (gl (browser s)) in
           set_atlasTextureRef (Some t) (on_gl (fun _ => g) s) in
  let s := set_uniformLocationsRef (Some {| loc_program := program |}) s in
  let s := on_gl (call_all (staticUniforms o pixelWidth pixelHeight
                              finalCharWidth finalFontSize finalCols (rows grid))) s in
  setIsReady true s.

(** [initWebGL]: the result is the boolean it returns and the state
    it leaves. *)
Definition initWebGL (o : Options) (s : Hook) : bool * Hook :=
  match canvasRef (dom s), containerRef (dom s) with
  | Some canvas, Some container =>
      if negb (mediaElementPresent o s) then (false, s)
      else if negb (mediaLoaded o s) then (false, s)
      else
        let s := set_needsMipmapUpdateRef true s in
        let currentWidth := inject_Z (clientWidth container) in
        let finalCols :=
          match truthyZ (numColumns o) with
          | Some n => n
          | None => Qfloor (currentWidth / (calculatedFontSize o * CHAR_WIDTH_RATIO))
          end in
        let finalFontSize :=
          match truthyZ (numColumns o) with
          | Some n => currentWidth / (inject_Z n * CHAR_WIDTH_RATIO)
          | None => calculatedFontSize o
          end in
        let grid := calculateGridDimensions CELL_ASPECT
                      (mediaWidth o s) (mediaHeight o s) finalCols in
        let s := setDimensions grid s in
        let finalCharWidth := finalFontSize * CHAR_WIDTH_RATIO in
        let s := set_canvas {| width := inject_Z (cols grid) * finalCharWidth;
                               height := inject_Z (rows grid) * finalFontSize;
                               webgl2 := webgl2 canvas |} s in
        if negb (webgl2 canvas) then (false, s)
        else
          let s := set_glRef true s in
          let '(vertexShader, g1) := compileShader VERTEX_SHADER (gl (browser s)) in
          let '(fragmentShader, g2) := compileShader FRAGMENT_SHADER g1 in
          let s := on_gl (fun _ => g2) s in
          match vertexShader, fragmentShader with
          | Some vs, Some fs =>
              let '(program, g3) := createProgram vs fs (gl (browser s)) in
              let s := on_gl (fun _ => g3) s in
              match program with
              | Some p =>
                  let s := setupSession o p (mediaWidth o s) (mediaHeight o s)
                             finalCols finalFontSize grid s in
                  (true, match mediaType o with
                         | Image => renderFrame o s
                         | Video => s
                         end)
              | None => (false, s)
              end
          | _, _ => (false, s)
          end
  | _, _ => (false, s)
  end.

(** *** Event handlers and effects *)

Definition handleLoadedMetadata (o : Options) (s : Hook) : Hook :=
  snd (initWebGL o s).

Definition handlePlay (s : Hook) : Hook :=
  requestAnimationFrame (setIsPlaying true s).

Definition handlePause (s : Hook) : Hook :=
  cancelAnimationFrame (setIsPlaying false s).

Definition handleEnded (s : Hook) : Hook :=
  cancelAnimationFrame (setIsPlaying false s).

Definition handleImageLoad (o : Options) (s : Hook) : Hook :=
  let s := snd (initWebGL o s) in
  if (0 <? map_size (uniformSettersRef s))%nat
  then requestAnimationFrame s
  else s.

(** The body shared by the effect "Reinitialize when config changes"
    and by the callback of the resize observer. *)
Definition reinitialize (o : Options) (s : Hook) : Hook :=
  match mediaType o with
  | Video => match videoRef (dom s) with
             | Some v => if (1 <=? readyState v)%Z then snd (initWebGL o s) else s
             | None => s
             end
  | Image => match imageRef (dom s) with
             | Some i => if complete i then snd (initWebGL o s) else s
             | None => s
             end
  end.

(** "Cleanup WebGL resources when unmounting" *)
Definition cleanupWebGL (s : Hook) : Hook :=
  let s :=
    if glRef (gpu s) then
      let s := match videoTextureRef (gpu s) with
               | Some t => on_gl (deleteTexture t) s | None => s end in
      let s := match atlasTextureRef (gpu s) with
               | Some t => on_gl (deleteTexture t) s | None => s end in
      match programRef (gpu s) with
      | Some p => on_gl (deleteProgram p) s | None => s end
    else s in
  cancelAnimationFrame s.

(** The cleanups React runs when the consumer unmounts: the one of
    the media effect, then the one of the WebGL resources. *)
Definition unmount (s : Hook) : Hook :=
  cleanupWebGL (cancelAnimationFrame s).

(** *** The hook driven by its environment *)

(** A display refresh: the browser runs the callbacks that were
    pending when the refresh began, each of them [render]. *)
Definition animationFrame (o : Options) (t : FrameClock) (s : Hook) : Hook :=
  fold_left (fun s _ => render o t s) (pendingFrames (browser s)) (clearPending s).

(** What reaches the hook.  The events of a media element come with
    the change the browser made to the element before it fired them. *)
Inductive Event : Type :=
| LoadedMetadata (w h : Z)
| Play
| Pause
| Ended
| ImageLoad (w h : Z)
| Resize (w : Z)
| AnimationFrame (t : FrameClock)
| Register (id : string) (setter : UniformSetter)
| Unregister (id : string)
| Unmount.

Definition step (o : Options) (e : Event) (s : Hook) : Hook :=
  match e with
  | LoadedMetadata w h =>
      match mediaType o, videoRef (dom s) with
      | Video, Some v =>
          handleLoadedMetadata o
            (set_video (Some {| videoWidth := w; videoHeight := h;
                                paused := paused v; ended := ended v;
                                readyState := Z.max 1 (readyState v) |}) s)
      | _, _ => s
      end
  | Play =>
      match mediaType o, videoRef (dom s) with
      | Video, Some v =>
          handlePlay
            (set_video (Some {| videoWidth := videoWidth v; videoHeight := videoHeight v;
                                paused := false; ended := false;
                                readyState := readyState v |}) s)
      | _, _ => s
      end
  | Pause =>
      match mediaType o, videoRef (dom s) with
      | Video, Some v =>
          handlePause
            (set_video (Some {| videoWidth := videoWidth v; videoHeight := videoHeight v;
                                paused := true; ended := ended v;
                                readyState := readyState v |}) s)
      | _, _ => s
      end
  | Ended =>
      match mediaType o, videoRef (dom s) with
      | Video, Some v =>
          handleEnded
            (set_video (Some {| videoWidth := videoWidth v; videoHeight := videoHeight v;
                                paused := paused v; ended := true;
                                readyState := readyState v |}) s)
      | _, _ => s
      end
  | ImageLoad w h =>
      match mediaType o, imageRef (dom s) with
      | Image, Some _ =>
          handleImageLoad o
            (set_image (Some {| naturalWidth := w; naturalHeight := h;
                                complete := true |}) s)
      | _, _ => s
      end
  | Resize w =>
      match containerRef (dom s) with
      | Some _ => reinitialize o (set_container (Some {| clientWidth := w |}) s)
      | None => s
      end
  | AnimationFrame t => animationFrame o t s
  | Register id setter => registerUniformSetter id setter s
  | Unregister id => unregisterUniformSetter id s
  | Unmount => unmount s
  end.

Definition run (o : Options) (es : list Event) (s : Hook) : Hook :=
  fold_left (fun s e => step o e s) es s.

(** The state of the first render of the component: every ref at its
    initial value, [lastFpsTimeRef] at the time of the mount. *)
Definition initialHook (d : Dom) (g : Context) (t0 : Q) : Hook :=
  {| dom := d;
     gpu := {| glRef := false; programRef := None; videoTextureRef := None;
               atlasTextureRef := None; uniformLocationsRef := None;
               needsMipmapUpdateRef := true |};
     bench := {| frameCountRef := 0; frameTimesRef := []; lastFpsTimeRef := t0 |};
     react := {| dimensions := {| cols := 80; rows := 24 |};
                 stats := {| fps := 0; frameTime := 0 |};
                 isReady := false; isPlaying := false |};
     uniformSettersRef := [];
     animationRef := 0;
     browser := {| gl := g; pendingFrames := []; nextFrameId := 1;
                   emittedStats := [] |} |}.

(** The effects of the first commit, in the order of their
    declaration: the media effect ("if ... is already loaded when we
    mount"), then the configuration effect. *)
Definition mountEffects (o : Options) (s : Hook) : Hook :=
  let s :=
    match mediaType o with
    | Video => match videoRef (dom s) with
               | Some v => if (1 <=? readyState v)%Z
                           then handleLoadedMetadata o s else s
               | None => s
               end
    | Image => match imageRef (dom s) with
               | Some i => if complete i && negb (Z.eqb (naturalWidth i) 0)
                           then handleImageLoad o s else s
               | None => s
               end
    end in
  reinitialize o s.

Definition mount (o : Options) (d : Dom) (g : Context) (t0 : Q) : Hook :=
  mountEffects o (initialHook d g t0).

End WithLibrary.

End Hook.

(* ===================================================================== *)
(** ** What is observed of a run                                          *)
(* ===================================================================== *)

Module Observe.
Import MediaUtils Grid WebGL Hook.

(** The log of the context of a hook, and the parts of the state the
    properties speak of. *)
Definition log (s : Hook) : list GLCall := calls (gl (browser s)).
Definition draws (s : Hook) : nat := drawCount (gl (browser s)).
Definition liveObjects (s : Hook) : list GLObject := objects (gl (browser s)).
Definition pending (s : Hook) : list nat := pendingFrames (browser s).
Definition emitted (s : Hook) : list AsciiStats := emittedStats (browser s).
Definition registry (s : Hook) : list (string * UniformSetter) := uniformSettersRef s.

(** The calls that [s'] has logged since [s]. *)
Definition newCalls (s s' : Hook) : list GLCall :=
  skipn (List.length (log s)) (log s').

(** The value a float uniform holds after a log: the one of the last
    [uniform1f] on its location. *)
Fixpoint uniformValue (name : string) (l : list GLCall) : option Q :=
  match l with
  | [] => None
  | c :: rest =>
      match uniformValue name rest with
      | Some v => Some v
      | None => match c with
                | Uniform1f n v => if String.eqb n name then Some v else None
                | _ => None
                end
      end
  end.

(** The callbacks a log calls into. *)
Fixpoint calledSetters (l : list GLCall) : list UniformSetter :=
  match l with
  | [] => []
  | CallSetter f _ :: rest => f :: calledSetters rest
  | _ :: rest => calledSetters rest
  end.

(** The number of entries of a registry under one id. *)
Definition entries (id : string) (m : list (string * UniformSetter)) : nat :=
  List.length (filter (fun e => String.eqb (fst e) id) m).

(** The loop owns at most one pending request, the one whose id is in
    [animationRef]. *)
Definition single_loop (s : Hook) : Prop :=
  pending s = [] \/ pending s = [animationRef s].

(** A display refresh for each clock of the list. *)
Definition refreshes (ts : list FrameClock) : list Event := map AnimationFrame ts.

(** The session a hook has registered: ready flag and GPU references. *)
Definition session (s : Hook)
  : bool * option WebGLProgram * option WebGLTexture * option WebGLTexture
    * option UniformLocations :=
  (isReady (react s), programRef (gpu s), videoTextureRef (gpu s),
   atlasTextureRef (gpu s), uniformLocationsRef (gpu s)).

(** Any cause of failure of [initWebGL] is present. *)
Definition initFails (o : Options) (s : Hook) : bool :=
  match canvasRef (dom s), containerRef (dom s) with
  | Some canvas, Some _ =>
      negb (mediaElementPresent o s) || negb (mediaLoaded o s)
      || negb (webgl2 canvas)
      || negb (vertexCompiles (gl (browser s)))
      || negb (fragmentCompiles (gl (browser s)))
      || negb (programLinks (gl (browser s)))
  | _, _ => true
  end.

(** The guards of [render] let the tick through. *)
Definition willRender (o : Options) (s : Hook) : bool :=
  glRef (gpu s) && isSome (programRef (gpu s))
  && isSome (uniformLocationsRef (gpu s))
  && mediaElementPresent o s && negb (videoStopped o s).

(** The guards of [renderFrame] let the frame through. *)
Definition willRenderFrame (s : Hook) : bool :=
  glRef (gpu s) && isSome (imageRef (dom s))
  && isSome (programRef (gpu s)) && isSome (uniformLocationsRef (gpu s)).

(** The calls of one drawn frame, [mip] telling whether mipmaps are
    regenerated. *)
Definition frameCalls (o : Options) (p : WebGLProgram) (mip : bool) (s : Hook)
  : list GLCall :=
  [ ActiveTexture 0; BindTexture (videoTextureRef (gpu s)); TexSubImage2D ]
  ++ (if mip then [ GenerateMipmap ] else [])
  ++ [ ActiveTexture 1; BindTexture (atlasTextureRef (gpu s)) ]
  ++ frameUniforms o ++ callSetters p s ++ [ DrawArrays 0 6 ].

(** [s'] is [s] after one more draw, made with the float uniforms of the
    options and with the dither mode that [s] had. *)
Definition drawn_with (o : Options) (s s' : Hook) : Prop :=
  draws s' = S (draws s) /\
  uniformValue "u_blend" (log s') = Some (blend o / 100) /\
  uniformValue "u_highlight" (log s') = Some (highlight o / 100) /\
  uniformValue "u_ditherMode" (log s') = uniformValue "u_ditherMode" (log s).

(** The history holds at most 60 timings. *)
Definition history_bounded (s : Hook) : Prop :=
  (List.length (frameTimesRef (bench s)) <= 60)%nat.

(** *** Sample runs *)

Definition sampleOptions (m : MediaType) : Options :=
  {| fontSize := None; numColumns := Some 80%Z; colored := true;
     blend := 50; highlight := 100; brightness := 1; dither := "random";
     chars := [" "; "."; ":"; "#"]; maxWidth := None;
     enableSpacebarToggle := false; onStats := false; mediaType := m;
     innerWidth := Some 1280 |}.

(** Percentages outside the documented range. *)
Definition outOfRangeOptions : Options :=
  {| fontSize := None; numColumns := Some 80%Z; colored := true;
     blend := 150; highlight := -20; brightness := 1; dither := "none";
     chars := [" "; "."; ":"; "#"]; maxWidth := None;
     enableSpacebarToggle := false; onStats := false; mediaType := Video;
     innerWidth := Some 1280 |}.

Definition sampleDom : Dom :=
  {| containerRef := Some {| clientWidth := 800 |};
     videoRef := Some {| videoWidth := 0; videoHeight := 0; paused := true;
                         ended := false; readyState := 0 |};
     imageRef := Some {| naturalWidth := 0; naturalHeight := 0; complete := false |};
     canvasRef := Some {| width := 300; height := 150; webgl2 := true |} |}.

Definition sampleContext : Context :=
  {| objects := []; nextHandle := 1; calls := [];
     vertexCompiles := true; fragmentCompiles := true; programLinks := true |}.

(** The same context once the driver rejects the fragment shader. *)
Definition rejectFragment (g : Context) : Context :=
  {| objects := objects g; nextHandle := nextHandle g; calls := calls g;
     vertexCompiles := vertexCompiles g; fragmentCompiles := false;
     programLinks := programLinks g |}.

Definition sampleClock (t : Q) : FrameClock :=
  {| frameStart := t; frameEnd := t + 2; now := t + 2 |}.

(** A video whose metadata has loaded. *)
Definition videoReady : Hook :=
  step (3 # 5) (1 # 2) (sampleOptions Video) (LoadedMetadata 640 480)
       (mount (3 # 5) (1 # 2) (sampleOptions Video) sampleDom sampleContext 0).

(** The same video after a resize of the container. *)
Definition videoResized : Hook :=
  step (3 # 5) (1 # 2) (sampleOptions Video) (Resize 600) videoReady.

(** The ready video on a driver that now rejects the fragment shader. *)
Definition videoRejected : Hook := on_gl rejectFragment videoReady.

(** A video with its metadata, never initialised, on such a driver. *)
Definition videoFirstRejected : Hook :=
  on_gl rejectFragment
    (set_video (Some {| videoWidth := 640; videoHeight := 480; paused := true;
                        ended := false; readyState := 1 |})
       (mount (3 # 5) (1 # 2) (sampleOptions Video) sampleDom sampleContext 0)).

(** The same video, playing, one frame into the loop. *)
Definition videoPlaying : Hook :=
  run (3 # 5) (1 # 2) (sampleOptions Video)
      [Play; AnimationFrame (sampleClock 16)] videoReady.

(** An image not yet loaded, without and with a registered contributor. *)
Definition imagePending : Hook :=
  mount (3 # 5) (1 # 2) (sampleOptions Image) sampleDom sampleContext 0.

Definition imageLoaded : Hook :=
  set_image (Some {| naturalWidth := 640; naturalHeight := 480; complete := true |})
            imagePending.

End Observe.

(* ===================================================================== *)
(** ** hooks/useAny2Ascii : playback controls and effect re-runs          *)
(* ===================================================================== *)

Module Controls.
Import MediaUtils Grid WebGL Hook Observe.

Section WithLibrary.

Variable CHAR_WIDTH_RATIO : Q.
Variable CELL_ASPECT : Q.

(** [HTMLMediaElement.play()], as far as the hook sees it: on a paused
    video the browser clears [paused] and fires [play]; on a video that
    is not paused it fires nothing. *)
Definition videoPlay (o : Options) (s : Hook) : Hook :=
  match videoRef (dom s) with
  | Some v => if paused v then step CHAR_WIDTH_RATIO CELL_ASPECT o Play s else s
  | None => s
  end.

(** [HTMLMediaElement.pause()]: on a video that is not paused the
    browser sets [paused] and fires [pause]; on a paused one, nothing. *)
Definition videoPause (o : Options) (s : Hook) : Hook :=
  match videoRef (dom s) with
  | Some v => if paused v then s else step CHAR_WIDTH_RATIO CELL_ASPECT o Pause s
  | None => s
  end.

(** [play]: [videoRef.current?.play()] *)
Definition play (o : Options) (s : Hook) : Hook := videoPlay o s.

(** [pause]: [videoRef.current?.pause()] *)
Definition pause (o : Options) (s : Hook) : Hook := videoPause o s.

(** [toggle] *)
Definition toggle (o : Options) (s : Hook) : Hook :=
  match videoRef (dom s) with
  | None => s
  | Some video => if paused video then videoPlay o s else videoPause o s
  end.

(** [handleKeyDown], registered when [enableSpacebarToggle] is set:
    [e.code === "Space" && e.target === document.body]. *)
Definition handleKeyDown (o : Options) (code : string) (targetIsBody : bool)
    (s : Hook) : Hook :=
  if enableSpacebarToggle o
  then if String.eqb code "Space" && targetIsBody then toggle o s else s
  else s.

(** The video effect, whose dependencies are [initWebGL] and [render]:
    its cleanup, its body, and the re-run React makes when one of the
    two is re-created. *)
Definition videoEffectCleanup (s : Hook) : Hook := cancelAnimationFrame s.

Definition videoEffect (o : Options) (s : Hook) : Hook :=
  match mediaType o, videoRef (dom s) with
  | Video, Some video =>
      if (1 <=? readyState video)%Z
      then handleLoadedMetadata CHAR_WIDTH_RATIO CELL_ASPECT o s
      else s
  | _, _ => s
  end.

Definition rerunVideoEffect (o : Options) (s : Hook) : Hook :=
  match mediaType o, videoRef (dom s) with
  | Video, Some _ => videoEffect o (videoEffectCleanup s)
  | _, _ => s
  end.

(** components/AsciiMe : the effect "Control video playback based on
    isPlaying prop", for the values of the props [isPlaying] and
    [autoPlay].  [allowed] tells whether the browser lets [play()]
    through; a rejection is caught and changes nothing. *)
Definition playbackEffect (o : Options) (isPlayingProp autoPlay allowed : bool)
    (s : Hook) : Hook :=
  match videoRef (dom s), mediaType o with
  | Some _, Video =>
      if isPlayingProp
      then if autoPlay && isReady (react s)
           then if allowed then videoPlay o s else s
           else s
      else videoPause o s
  | _, _ => s
  end.

(** What drives a mounted hook: an event of its environment, or a call
    on its control surface. *)
Inductive Action : Type :=
| Env (e : Event)
| CallPlay
| CallPause
| CallToggle
| KeyDown (code : string) (targetIsBody : bool)
| RerunVideoEffect
| PlaybackEffect (isPlayingProp autoPlay allowed : bool).

Definition act (o : Options) (a : Action) (s : Hook) : Hook :=
  match a with
  | Env e => step CHAR_WIDTH_RATIO CELL_ASPECT o e s
  | CallPlay => play o s
  | CallPause => pause o s
  | CallToggle => toggle o s
  | KeyDown code targetIsBody => handleKeyDown o code targetIsBody s
  | RerunVideoEffect => rerunVideoEffect o s
  | PlaybackEffect isPlayingProp autoPlay allowed =>
      playbackEffect o isPlayingProp autoPlay allowed s
  end.

Definition drive (o : Options) (acts : list Action) (s : Hook) : Hook :=
  fold_left (fun s a => act o a s) acts s.

(** The columns and the font size that [initWebGL] derives from the
    current width of the container. *)
Definition finalCols (o : Options) (currentWidth : Z) : Z :=
  match truthyZ (numColumns o) with
  | Some n => n
  | None => Qfloor (inject_Z currentWidth
                    / (calculatedFontSize CHAR_WIDTH_RATIO o * CHAR_WIDTH_RATIO))
  end.

Definition finalFontSize (o : Options) (currentWidth : Z) : Q :=
  match truthyZ (numColumns o) with
  | Some n => inject_Z currentWidth / (inject_Z n * CHAR_WIDTH_RATIO)
  | None => calculatedFontSize CHAR_WIDTH_RATIO o
  end.

End WithLibrary.

(** *** Further observations *)

(** The play event reaches the hook through the controls only. *)
Definition not_play (a : Action) : Prop := a <> Env Play.

(** A stopped video has nothing pending. *)
Definition idle_when_paused (s : Hook) : Prop :=
  forall v, videoRef (dom s) = Some v -> paused v = true -> pending s = [].

(** The callback an id should hold after a list of events, [cur] being
    the one it held before: that of its last registration, unless an
    unregistration followed. *)
Fixpoint lastRegistration (id : string) (es : list Event)
    (cur : option UniformSetter) : option UniformSetter :=
  match es with
  | [] => cur
  | Register id' f :: rest =>
      lastRegistration id rest (if String.eqb id' id then Some f else cur)
  | Unregister id' :: rest =>
      lastRegistration id rest (if String.eqb id' id then None else cur)
  | _ :: rest => lastRegistration id rest cur
  end.

(** The last [n] elements of a list. *)
Definition lastn {A : Type} (n : nat) (l : list A) : list A :=
  skipn (List.length l - n) l.

(** The time [render] measures for a frame. *)
Definition duration (t : FrameClock) : Q := frameEnd t - frameStart t.

(** The objects the refs of the session point to. *)
Definition registeredObjects (s : Hook) : list GLObject :=
  match videoTextureRef (gpu s) with Some t => [TextureObj t] | None => [] end
  ++ match atlasTextureRef (gpu s) with Some t => [TextureObj t] | None => [] end
  ++ match programRef (gpu s) with Some p => [ProgramObj p] | None => [] end.

(** The value a [vec2] uniform holds after a log, and the viewport. *)
Fixpoint uniform2Value (name : string) (l : list GLCall) : option (Q * Q) :=
  match l with
  | [] => None
  | c :: rest =>
      match uniform2Value name rest with
      | Some v => Some v
      | None => match c with
                | Uniform2f n x y => if String.eqb n name then Some (x, y) else None
                | _ => None
                end
      end
  end.

Fixpoint viewportValue (l : list GLCall) : option (Q * Q) :=
  match l with
  | [] => None
  | c :: rest =>
      match viewportValue rest with
      | Some v => Some v
      | None => match c with
                | Viewport w h => Some (w, h)
                | _ => None
                end
      end
  end.

(** Mipmaps were regenerated somewhere in a log. *)
Definition regeneratesMipmaps (l : list GLCall) : bool :=
  existsb (fun c => match c with GenerateMipmap => true | _ => false end) l.

(** What [s'] keeps of [s]: the registry, a ready flag that is set, a
    media texture that is registered. *)
Definition keeps (s s' : Hook) : Prop :=
  registry s' = registry s /\
  (isReady (react s) = true -> isReady (react s') = true) /\
  (forall v, videoTextureRef (gpu s) = Some v -> videoTextureRef (gpu s') = Some v).

End Controls.

(* ===================================================================== *)
(** * Properties                                                          *)
(* ===================================================================== *)

(** ** Media type detection *)

Section MediaTypeFacts.
Import MediaUtils.

Lemma append_empty_r (s : string) : (s ++ "")%string = s.
Proof. induction s as [|c s IH]; simpl; [reflexivity | now rewrite IH]. Qed.

Lemma append_assoc' (a b c : string) :
  ((a ++ b) ++ c)%string = (a ++ (b ++ c))%string.
Proof. induction a as [|x a IH]; simpl; [reflexivity | now rewrite IH]. Qed.

Lemma occurs_app (c : ascii) (a b : string) :
  occurs c (a ++ b)%string = occurs c a || occurs c b.
Proof.
  induction a as [|x a IH]; simpl; [reflexivity|].
  now rewrite IH, orb_assoc.
Qed.

Lemma split_nonempty (sep : ascii) (s : string) : split sep s <> [].
Proof.
  destruct s as [|c s]; simpl; [discriminate|].
  destruct (Ascii.eqb c sep); [discriminate|].
  destruct (split sep s); discriminate.
Qed.

(** A string without the separator is a single component. *)
Lemma split_absent (sep : ascii) (s : string) :
  occurs sep s = false -> split sep s = [s].
Proof.
  induction s as [|c s IH]; simpl; intros H; [reflexivity|].
  apply orb_false_iff in H. destruct H as [Hc Hs].
  rewrite Hc, (IH Hs). reflexivity.
Qed.

(** [split] cuts at every separator. *)
Lemma split_app_sep (sep : ascii) (a b : string) :
  split sep (a ++ String sep b)%string = split sep a ++ split sep b.
Proof.
  induction a as [|c a IH]; simpl.
  - now rewrite Ascii.eqb_refl.
  - destruct (Ascii.eqb c sep).
    + now rewrite IH.
    + rewrite IH. destruct (split sep a) as [|h t] eqn:E.
      * now apply split_nonempty in E.
      * reflexivity.
Qed.

Lemma first_occurrence (sep : ascii) (s : string) :
  occurs sep s = true ->
  exists a q, s = (a ++ String sep q)%string /\ occurs sep a = false.
Proof.
  induction s as [|c s IH]; simpl; [discriminate|].
  destruct (Ascii.eqb c sep) eqn:E.
  - intros _. apply Ascii.eqb_eq in E. subst c.
    exists EmptyString, s. split; reflexivity.
  - simpl. intros H. destruct (IH H) as (a & q & -> & Ha).
    exists (String c a), q. split; [reflexivity|].
    simpl. now rewrite E.
Qed.

Lemma last_occurrence (sep : ascii) (s : string) :
  occurs sep s = true ->
  exists p e, s = (p ++ String sep e)%string /\ occurs sep e = false.
Proof.
  induction s as [|c s IH]; simpl; [discriminate|].
  destruct (occurs sep s) eqn:Hs.
  - intros _. destruct (IH eq_refl) as (p & e & -> & He).
    exists (String c p), e. split; [reflexivity | exact He].
  - rewrite orb_false_r. intros E. apply Ascii.eqb_eq in E. subst c.
    exists EmptyString, s. split; [reflexivity | exact Hs].
Qed.

(** The first component is what comes before the first separator. *)
Lemma split_hd_unique (sep : ascii) (a rest : string) :
  occurs sep a = false ->
  (rest = EmptyString \/ exists q, rest = String sep q) ->
  hd EmptyString (split sep (a ++ rest)%string) = a.
Proof.
  intros Ha [-> | [q ->]].
  - rewrite append_empty_r, (split_absent _ _ Ha). reflexivity.
  - rewrite split_app_sep, (split_absent _ _ Ha). reflexivity.
Qed.

(** The last component is what comes after the last separator. *)
Lemma split_last_unique (sep : ascii) (stem e : string) :
  occurs sep e = false ->
  (stem = EmptyString \/ exists p, stem = (p ++ String sep EmptyString)%string) ->
  last (split sep (stem ++ e)%string) EmptyString = e.
Proof.
  intros He [-> | [p ->]].
  - simpl. rewrite (split_absent _ _ He). reflexivity.
  - rewrite append_assoc'. simpl.
    rewrite split_app_sep, (split_absent _ _ He). apply last_last.
Qed.

Lemma split_hd_spec (sep : ascii) (s : string) :
  exists rest,
    s = (hd EmptyString (split sep s) ++ rest)%string /\
    occurs sep (hd EmptyString (split sep s)) = false /\
    (rest = EmptyString \/ exists q, rest = String sep q).
Proof.
  destruct (occurs sep s) eqn:H.
  - destruct (first_occurrence _ _ H) as (a & q & -> & Ha).
    rewrite (split_hd_unique sep a (String sep q) Ha) by eauto.
    exists (String sep q). eauto.
  - rewrite (split_absent _ _ H). simpl. exists EmptyString.
    rewrite append_empty_r. auto.
Qed.

Lemma split_last_spec (sep : ascii) (s : string) :
  exists stem,
    s = (stem ++ last (split sep s) EmptyString)%string /\
    occurs sep (last (split sep s) EmptyString) = false /\
    (stem = EmptyString \/ exists p, stem = (p ++ String sep EmptyString)%string).
Proof.
  destruct (occurs sep s) eqn:H.
  - destruct (last_occurrence _ _ H) as (p & e & -> & He).
    assert (E : (p ++ String sep e)%string
                = ((p ++ String sep EmptyString) ++ e)%string)
      by now rewrite append_assoc'.
    rewrite E.
    rewrite (split_last_unique sep _ e He) by eauto.
    exists (p ++ String sep EmptyString)%string. eauto.
  - rewrite (split_absent _ _ H). simpl. exists EmptyString. auto.
Qed.

(** [detectMediaType] against the words of the spec. *)
Lemma extension_has_extension (src : string) :
  exists ext, has_extension src ext /\ extension src = toLowerCase ext.
Proof.
  unfold extension, urlParts.
  destruct (split_hd_spec "?" src) as (rest & Hsrc & Hq & Hrest).
  destruct (split_last_spec "." (hd EmptyString (split "?" src)))
    as (stem & Hu & Hdot & Hstem).
  set (u := hd EmptyString (split "?" src)) in *.
  set (e := last (split "." u) EmptyString) in *.
  exists e. split; [|reflexivity].
  rewrite Hu, occurs_app in Hq. apply orb_false_iff in Hq.
  exists stem, rest. repeat split; try tauto.
  rewrite <- append_assoc', <- Hu. exact Hsrc.
Qed.

Lemma has_extension_extension (src ext : string) :
  has_extension src ext -> extension src = toLowerCase ext.
Proof.
  intros (stem & rest & -> & Hs & Hstem & Hd & Hq & Hrest).
  unfold extension, urlParts.
  rewrite <- append_assoc'.
  rewrite split_hd_unique; [| rewrite occurs_app, Hs, Hq; reflexivity | exact Hrest].
  rewrite split_last_unique; auto.
Qed.

Lemma includes_In (l : list string) (x : string) :
  includes l x = true <-> In x l.
Proof.
  unfold includes. rewrite existsb_exists. split.
  - intros (y & Hy & E). apply String.eqb_eq in E. now subst.
  - intros H. exists x. split; [exact H | apply String.eqb_refl].
Qed.

Lemma detectMediaType_includes (src : string) :
  detectMediaType src = Image <-> includes imageExtensions (extension src) = true.
Proof.
  destruct src as [|c src].
  - simpl. split; discriminate.
  - unfold detectMediaType.
    destruct (includes imageExtensions (extension (String c src))); split;
      intros; (reflexivity || discriminate).
Qed.

Lemma detectMediaType_image_iff (src : string) :
  detectMediaType src = Image <->
  exists ext, has_extension src ext /\ In (toLowerCase ext) imageExtensions.
Proof.
  rewrite detectMediaType_includes, includes_In. split.
  - intros H. destruct (extension_has_extension src) as (ext & Hext & E).
    exists ext. split; [exact Hext | now rewrite <- E].
  - intros (ext & Hext & H). now rewrite (has_extension_extension _ _ Hext).
Qed.

(** C8. When the [mediaType] prop is given it is the media type; when it
    is not, the type is detected from the file extension of the source
    (the last dot-separated component of what precedes the query string,
    letter case ignored): the source is an image exactly when that
    extension is one of [jpg], [jpeg], [png], [webp], [bmp], [svg], and a
    video in every other case, animated GIFs and video files included. *)
Theorem media_type_detected_by_extension :
  (forall (t : MediaType) (src : string), resolvedMediaType (Some t) src = t) /\
  (forall src : string,
      resolvedMediaType None src = Image <->
      exists ext, has_extension src ext /\ In (toLowerCase ext) imageExtensions) /\
  (forall src : string,
      resolvedMediaType None src = Video <->
      ~ exists ext, has_extension src ext /\ In (toLowerCase ext) imageExtensions) /\
  resolvedMediaType None "loop.gif" = Video /\
  resolvedMediaType None "https://cdn.example.com/clip.mp4?t=10" = Video /\
  resolvedMediaType None "movie.webm" = Video /\
  resolvedMediaType None "Photo.PNG?w=200" = Image.
Proof.
  split; [reflexivity|].
  split; [intros src; apply detectMediaType_image_iff|].
  split; [|repeat split; reflexivity].
  intros src. simpl. rewrite <- detectMediaType_image_iff.
  destruct (detectMediaType src); split; intros H;
    try reflexivity; try discriminate; try (exfalso; apply H; reflexivity).
Qed.

End MediaTypeFacts.

(** ** Grid sizing *)

Section GridFacts.
Import Grid.

Lemma js_round_near (x : Q) :
  x - (1 # 2) < inject_Z (js_round x) /\ inject_Z (js_round x) <= x + (1 # 2).
Proof.
  unfold js_round.
  pose proof (Qfloor_le (x + (1 # 2))) as Hle.
  pose proof (Qlt_floor (x + (1 # 2))) as Hlt.
  rewrite inject_Z_plus in Hlt.
  change (inject_Z 1) with 1 in Hlt.
  generalize dependent (inject_Z (Qfloor (x + (1 # 2)))). intros r Hle Hlt.
  split; lra.
Qed.

Lemma idealRows_pos (a : Q) (w h c : Z) :
  0 < a -> (0 < w)%Z -> (0 < h)%Z -> (0 < c)%Z -> 0 < idealRows a w h c.
Proof.
  intros Ha Hw Hh Hc. unfold idealRows, Qdiv.
  assert (Qw : 0 < inject_Z w) by (unfold Qlt; simpl; lia).
  assert (Qh : 0 < inject_Z h) by (unfold Qlt; simpl; lia).
  assert (Qc : 0 < inject_Z c) by (unfold Qlt; simpl; lia).
  repeat apply Qmult_lt_0_compat; auto using Qinv_lt_0_compat.
Qed.

(** C5. For positive media width, media height and target columns (and
    a positive character cell aspect ratio), grid sizing returns the
    target columns, and as rows the rounding of
    [targetColumns * (mediaH / mediaW) / cellAspect] clamped to at least
    1, which is at least 1 and within 1 of the unrounded value; for
    640 x 480 media, 80 columns and a cell aspect ratio of 0.5 the rows
    are 120. *)
Theorem grid_sizing_rows (cellAspect : Q) (mediaW mediaH targetColumns : Z) :
  0 < cellAspect -> (0 < mediaW)%Z -> (0 < mediaH)%Z -> (0 < targetColumns)%Z ->
  let g := calculateGridDimensions cellAspect mediaW mediaH targetColumns in
  cols g = targetColumns /\
  rows g = Z.max 1 (js_round (inject_Z targetColumns
                              * (inject_Z mediaH / inject_Z mediaW) / cellAspect)) /\
  (1 <= rows g)%Z /\
  Qabs (inject_Z (rows g) - idealRows cellAspect mediaW mediaH targetColumns) <= 1 /\
  rows (calculateGridDimensions (1 # 2) 640 480 80) = 120%Z.
Proof.
  intros Ha Hw Hh Hc g. subst g.
  unfold calculateGridDimensions. cbn [cols rows].
  split; [reflexivity|]. split; [reflexivity|]. split; [lia|].
  split; [|vm_compute; reflexivity].
  pose proof (idealRows_pos _ _ _ _ Ha Hw Hh Hc) as Hpos.
  pose proof (js_round_near (idealRows cellAspect mediaW mediaH targetColumns))
    as [Hlo Hhi].
  set (x := idealRows cellAspect mediaW mediaH targetColumns) in *.
  apply Qabs_Qle_condition.
  clearbody x.
  destruct (Z.max_spec 1 (js_round x)) as [[Hlt ->] | [Hge ->]].
  - generalize dependent (inject_Z (js_round x)). intros r Hlo Hhi.
    split; lra.
  - assert (Hr : inject_Z (js_round x) <= 1).
    { unfold Qle; simpl; lia. }
    change (inject_Z 1) with 1.
    generalize dependent (inject_Z (js_round x)). intros r Hlo Hhi Hr.
    split; lra.
Qed.

Lemma grid_sizing_rows_witness :
  let g := calculateGridDimensions (3 # 5) 1920 1080 100 in
  cols g = 100%Z /\
  rows g = Z.max 1 (js_round (inject_Z 100 * (inject_Z 1080 / inject_Z 1920) / (3 # 5))) /\
  (1 <= rows g)%Z /\
  Qabs (inject_Z (rows g) - idealRows (3 # 5) 1920 1080 100) <= 1 /\
  rows (calculateGridDimensions (1 # 2) 640 480 80) = 120%Z.
Proof.
  apply (grid_sizing_rows (3 # 5) 1920 1080 100); reflexivity.
Defined.

End GridFacts.

(** ** The context and its log *)

Section ContextFacts.
Import WebGL.

Lemma calls_call_all (cs : list GLCall) (g : Context) :
  calls (call_all cs g) = calls g ++ cs.
Proof.
  revert g. induction cs as [|c cs IH]; intros g; simpl.
  - now rewrite app_nil_r.
  - unfold call_all in IH. rewrite IH. simpl. now rewrite <- app_assoc.
Qed.

Lemma objects_call_all (cs : list GLCall) (g : Context) :
  objects (call_all cs g) = objects g.
Proof.
  revert g. induction cs as [|c cs IH]; intros g; simpl; [reflexivity|].
  unfold call_all in IH. now rewrite IH.
Qed.

Lemma nextHandle_call_all (cs : list GLCall) (g : Context) :
  nextHandle (call_all cs g) = nextHandle g.
Proof.
  revert g. induction cs as [|c cs IH]; intros g; simpl; [reflexivity|].
  unfold call_all in IH. now rewrite IH.
Qed.

Lemma drawCount_app (g g' : Context) (cs : list GLCall) :
  calls g' = calls g ++ cs ->
  drawCount g' = (drawCount g + List.length (filter is_draw cs))%nat.
Proof.
  unfold drawCount. intros ->. now rewrite filter_app, length_app.
Qed.

End ContextFacts.

(** ** The uniform registry *)

Section RegistryFacts.
Import WebGL Hook Observe.

Implicit Types m : list (string * UniformSetter).

Lemma map_get_set_same m (k : string) (v : UniformSetter) :
  map_get k (map_set k v m) = Some v.
Proof.
  induction m as [|[k' v'] m IH]; simpl.
  - now rewrite String.eqb_refl.
  - destruct (String.eqb k' k) eqn:E; simpl.
    + now rewrite String.eqb_refl.
    + now rewrite E.
Qed.

Lemma entries_absent m (k : string) :
  ~ In k (map fst m) -> entries k m = 0%nat.
Proof.
  unfold entries. induction m as [|[k' v'] m IH]; simpl; intros H; [reflexivity|].
  destruct (String.eqb k' k) eqn:E.
  - apply String.eqb_eq in E. tauto.
  - apply IH. tauto.
Qed.

(** After [set], a registry without repeated ids has one entry for the id. *)
Lemma entries_set m (k : string) (v : UniformSetter) :
  NoDup (map fst m) -> entries k (map_set k v m) = 1%nat.
Proof.
  unfold entries. induction m as [|[k' v'] m IH]; simpl; intros H.
  - now rewrite String.eqb_refl.
  - inversion H as [|? ? Hnot Hrest]; subst.
    destruct (String.eqb k' k) eqn:E; simpl.
    + rewrite String.eqb_refl. simpl. f_equal.
      apply String.eqb_eq in E. subst k'.
      now apply entries_absent.
    + rewrite E. now apply IH.
Qed.

Lemma map_set_keys m (k : string) (v : UniformSetter) :
  forall x, In x (map fst (map_set k v m)) <-> x = k \/ In x (map fst m).
Proof.
  induction m as [|[k' v'] m IH]; simpl; intros x.
  - intuition congruence.
  - destruct (String.eqb k' k) eqn:E; simpl.
    + apply String.eqb_eq in E. subst k'. intuition congruence.
    + rewrite IH. intuition congruence.
Qed.

Lemma map_set_NoDup m (k : string) (v : UniformSetter) :
  NoDup (map fst m) -> NoDup (map fst (map_set k v m)).
Proof.
  induction m as [|[k' v'] m IH]; simpl; intros H.
  - constructor; [intros [] | constructor].
  - inversion H as [|? ? Hnot Hrest]; subst.
    destruct (String.eqb k' k) eqn:E; simpl.
    + apply String.eqb_eq in E. subst k'. now constructor.
    + constructor; [|now apply IH].
      rewrite map_set_keys. intros [-> | Hin]; [|tauto].
      now rewrite String.eqb_refl in E.
Qed.

Lemma map_delete_In m (k : string) (e : string * UniformSetter) :
  In e (map_delete k m) <-> In e m /\ fst e <> k.
Proof.
  unfold map_delete. rewrite filter_In, negb_true_iff.
  split; intros [H1 H2]; split; auto.
  - intros E. apply String.eqb_eq in E. congruence.
  - apply String.eqb_neq. exact H2.
Qed.

Lemma map_delete_NoDup m (k : string) :
  NoDup (map fst m) -> NoDup (map fst (map_delete k m)).
Proof.
  unfold map_delete. induction m as [|[k' v'] m IH]; simpl; intros H; [constructor|].
  inversion H as [|? ? Hnot Hrest]; subst.
  destruct (String.eqb k' k); simpl; [now apply IH|].
  constructor; [|now apply IH].
  intros Hin. apply Hnot. apply in_map_iff in Hin.
  destruct Hin as (e & <- & He). apply filter_In in He.
  apply in_map. tauto.
Qed.

Lemma map_get_delete_same m (k : string) :
  map_get k (map_delete k m) = None.
Proof.
  unfold map_delete. induction m as [|[k' v'] m IH]; simpl; [reflexivity|].
  destruct (String.eqb k' k) eqn:E; simpl; [exact IH|].
  now rewrite E.
Qed.

Lemma entries_delete_same m (k : string) :
  entries k (map_delete k m) = 0%nat.
Proof.
  apply entries_absent. intros Hin. apply in_map_iff in Hin.
  destruct Hin as (e & He & Hin). apply map_delete_In in Hin. tauto.
Qed.

Lemma map_get_In m (k : string) (v : UniformSetter) :
  NoDup (map fst m) -> In (k, v) m -> map_get k m = Some v.
Proof.
  induction m as [|[k' v'] m IH]; simpl; intros H Hin; [contradiction|].
  inversion H as [|? ? Hnot Hrest]; subst.
  destruct Hin as [E | Hin].
  - inversion E; subst. now rewrite String.eqb_refl.
  - destruct (String.eqb k' k) eqn:E.
    + apply String.eqb_eq in E. subst k'.
      exfalso. apply Hnot. change k with (fst (k, v)). now apply in_map.
    + now apply IH.
Qed.

Lemma calledSetters_app (a b : list GLCall) :
  calledSetters (a ++ b) = calledSetters a ++ calledSetters b.
Proof.
  induction a as [|c a IH]; simpl; [reflexivity|].
  destruct c; simpl; now rewrite ?IH.
Qed.

Lemma calledSetters_callSetters (p : WebGLProgram) (s : Hook) :
  calledSetters (callSetters p s) = map_values (uniformSettersRef s).
Proof.
  unfold callSetters. induction (map_values (uniformSettersRef s)) as [|f l IH];
    simpl; [reflexivity | now rewrite IH].
Qed.

End RegistryFacts.

(** ** One frame *)

Ltac hook_simpl :=
  unfold Observe.log, Observe.draws, Observe.liveObjects, Observe.pending,
         Observe.emitted, Observe.registry, Observe.session,
         Hook.callSetters in *;
  cbn [Hook.dom Hook.gpu Hook.bench Hook.react Hook.uniformSettersRef
       Hook.animationRef Hook.browser
       Hook.gl Hook.pendingFrames Hook.nextFrameId Hook.emittedStats
       Hook.glRef Hook.programRef Hook.videoTextureRef Hook.atlasTextureRef
       Hook.uniformLocationsRef Hook.needsMipmapUpdateRef
       Hook.frameCountRef Hook.frameTimesRef Hook.lastFpsTimeRef
       Hook.dimensions Hook.stats Hook.isReady Hook.isPlaying
       Hook.containerRef Hook.videoRef Hook.imageRef Hook.canvasRef
       Hook.with_dom Hook.with_gpu Hook.with_bench Hook.with_react
       Hook.with_setters Hook.with_animationRef Hook.with_browser
       Hook.set_glRef Hook.set_programRef Hook.set_videoTextureRef
       Hook.set_atlasTextureRef Hook.set_uniformLocationsRef
       Hook.set_needsMipmapUpdateRef
       Hook.setDimensions Hook.setIsReady Hook.setIsPlaying Hook.setStats
       Hook.on_gl Hook.set_canvas Hook.set_video Hook.set_image
       Hook.set_container
       Hook.requestAnimationFrame Hook.cancelAnimationFrame Hook.clearPending
       Hook.registerUniformSetter Hook.unregisterUniformSetter
       WebGL.objects WebGL.nextHandle WebGL.calls WebGL.vertexCompiles
       WebGL.fragmentCompiles WebGL.programLinks WebGL.with_objects WebGL.call
       Hook.isSome fst snd negb andb orb] in *.

Section FrameFacts.
Import MediaUtils Grid WebGL Hook Observe.

Lemma calls_call (c : GLCall) (g : Context) : calls (call c g) = calls g ++ [c].
Proof. reflexivity. Qed.

(** The statistics touch nothing but the counters, the [stats] state and
    the emitted snapshots. *)
Lemma trackPerformance_frame (t : FrameClock) (s : Hook) :
  let s' := trackPerformance t s in
  dom s' = dom s /\ gpu s' = gpu s /\
  uniformSettersRef s' = uniformSettersRef s /\
  animationRef s' = animationRef s /\
  gl (browser s') = gl (browser s) /\
  pendingFrames (browser s') = pendingFrames (browser s) /\
  nextFrameId (browser s') = nextFrameId (browser s) /\
  isReady (react s') = isReady (react s).
Proof.
  unfold trackPerformance. destruct (Qle_bool _ _); hook_simpl; repeat split.
Qed.

Lemma render_idle (o : Options) (t : FrameClock) (s : Hook) :
  willRender o s = false -> render o t s = s.
Proof.
  unfold willRender, render.
  destruct (glRef (gpu s)), (programRef (gpu s)), (uniformLocationsRef (gpu s));
    try reflexivity.
  destruct (mediaElementPresent o s); [|reflexivity].
  destruct (videoStopped o s); [reflexivity | discriminate].
Qed.

Lemma willRender_program (o : Options) (s : Hook) :
  willRender o s = true ->
  exists p l, glRef (gpu s) = true /\ programRef (gpu s) = Some p /\
              uniformLocationsRef (gpu s) = Some l /\
              mediaElementPresent o s = true /\ videoStopped o s = false.
Proof.
  unfold willRender.
  destruct (glRef (gpu s)), (programRef (gpu s)) as [p|],
           (uniformLocationsRef (gpu s)) as [l|],
           (mediaElementPresent o s), (videoStopped o s);
    try discriminate.
  intros _. exists p, l. repeat split.
Qed.

(** What a tick that passes the guards does. *)
Lemma render_active (o : Options) (t : FrameClock) (s : Hook) :
  willRender o s = true ->
  let s' := render o t s in
  exists p,
    programRef (gpu s) = Some p /\
    log s' = log s
             ++ frameCalls o p (MediaType_eqb (mediaType o) Video
                                && needsMipmapUpdateRef (gpu s)) s /\
    pending s' = pending s ++ [nextFrameId (browser s)] /\
    animationRef s' = nextFrameId (browser s) /\
    nextFrameId (browser s') = S (nextFrameId (browser s)) /\
    dom s' = dom s /\ registry s' = registry s /\
    liveObjects s' = liveObjects s /\
    glRef (gpu s') = true /\ programRef (gpu s') = Some p /\
    uniformLocationsRef (gpu s') = uniformLocationsRef (gpu s) /\
    videoTextureRef (gpu s') = videoTextureRef (gpu s) /\
    atlasTextureRef (gpu s') = atlasTextureRef (gpu s) /\
    isReady (react s') = isReady (react s).
Proof.
  intros H. destruct (willRender_program _ _ H) as (p & l & H1 & H2 & H3 & H4 & H5).
  exists p. split; [exact H2|].
  unfold render. rewrite H1, H2, H3, H4, H5. cbn [negb].
  match goal with |- context [trackPerformance t ?x] =>
    pose proof (trackPerformance_frame t x) as T; cbv zeta in T;
    set (s3 := x) in *
  end.
  destruct T as (Td & Tg & Tu & Ta & Tgl & Tp & Tn & Tr).
  unfold log, pending, registry, liveObjects.
  cbn [requestAnimationFrame with_animationRef with_browser animationRef browser
       gl pendingFrames nextFrameId dom gpu uniformSettersRef react].
  rewrite Td, Tg, Tu, Tgl, Tp, Tn, Tr. subst s3.
  unfold frameCalls. hook_simpl.
  destruct (MediaType_eqb (mediaType o) Video && needsMipmapUpdateRef (gpu s));
    hook_simpl; rewrite ?calls_call_all, ?objects_call_all, ?calls_call;
    cbn [objects call]; rewrite ?calls_call_all, ?objects_call_all;
    rewrite <- ?app_assoc; repeat split; auto.
Qed.

Lemma renderFrame_idle (o : Options) (s : Hook) :
  willRenderFrame s = false -> renderFrame o s = s.
Proof.
  unfold willRenderFrame, renderFrame.
  destruct (glRef (gpu s)), (imageRef (dom s)), (programRef (gpu s)),
           (uniformLocationsRef (gpu s)); try reflexivity; discriminate.
Qed.

(** What a single frame that passes the guards does. *)
Lemma renderFrame_active (o : Options) (s : Hook) :
  willRenderFrame s = true ->
  let s' := renderFrame o s in
  exists p,
    programRef (gpu s) = Some p /\
    log s' = log s ++ frameCalls o p (needsMipmapUpdateRef (gpu s)) s /\
    dom s' = dom s /\ bench s' = bench s /\ react s' = react s /\
    uniformSettersRef s' = uniformSettersRef s /\
    animationRef s' = animationRef s /\
    pending s' = pending s /\
    nextFrameId (browser s') = nextFrameId (browser s) /\
    emitted s' = emitted s /\
    liveObjects s' = liveObjects s /\
    glRef (gpu s') = glRef (gpu s) /\
    programRef (gpu s') = programRef (gpu s) /\
    uniformLocationsRef (gpu s') = uniformLocationsRef (gpu s) /\
    videoTextureRef (gpu s') = videoTextureRef (gpu s) /\
    atlasTextureRef (gpu s') = atlasTextureRef (gpu s).
Proof.
  unfold willRenderFrame, renderFrame, frameCalls.
  destruct (glRef (gpu s)) eqn:H1, (imageRef (dom s)) as [i|],
           (programRef (gpu s)) as [p|] eqn:H2,
           (uniformLocationsRef (gpu s)) as [l|] eqn:H3; try discriminate.
  intros _. exists p. split; [reflexivity|]. hook_simpl.
  destruct (needsMipmapUpdateRef (gpu s));
    hook_simpl; rewrite ?calls_call_all, ?objects_call_all, ?calls_call;
    cbn [objects call]; rewrite ?calls_call_all, ?objects_call_all;
    rewrite <- ?app_assoc; repeat split; auto.
Qed.

End FrameFacts.

(** ** Initialisation *)

Section InitFacts.
Import MediaUtils Grid WebGL Hook Observe.

Variable CHAR_WIDTH_RATIO : Q.
Variable CELL_ASPECT : Q.

Lemma uniformValue_app (name : string) (a b : list GLCall) :
  uniformValue name (a ++ b)
  = match uniformValue name b with
    | Some v => Some v
    | None => uniformValue name a
    end.
Proof.
  induction a as [|c a IH]; simpl.
  - now destruct (uniformValue name b).
  - rewrite IH. destruct (uniformValue name b); [reflexivity|].
    reflexivity.
Qed.

Lemma uniformValue_setters (name : string) (p : WebGLProgram) (fs : list UniformSetter) :
  uniformValue name (map (fun f => CallSetter f p) fs) = None.
Proof. induction fs as [|f fs IH]; simpl; [reflexivity | now rewrite IH]. Qed.

Lemma filter_draw_setters (p : WebGLProgram) (fs : list UniformSetter) :
  filter is_draw (map (fun f => CallSetter f p) fs) = [].
Proof. induction fs as [|f fs IH]; simpl; [reflexivity | exact IH]. Qed.

(** One drawn frame holds one draw call. *)
Lemma frameCalls_draws (o : Options) (p : WebGLProgram) (mip : bool) (s : Hook) :
  List.length (filter is_draw (frameCalls o p mip s)) = 1%nat.
Proof.
  unfold frameCalls, callSetters.
  rewrite !filter_app, filter_draw_setters. destruct mip; reflexivity.
Qed.

(** The float uniforms a drawn frame leaves are those of [frameUniforms]. *)
Lemma frameCalls_uniformValue (name : string) (o : Options) (p : WebGLProgram)
    (mip : bool) (s : Hook) :
  uniformValue name (frameCalls o p mip s) = uniformValue name (frameUniforms o).
Proof.
  unfold frameCalls, callSetters.
  rewrite !uniformValue_app, uniformValue_setters.
  change (uniformValue name [DrawArrays 0 6]) with (@None Q).
  destruct (uniformValue name (frameUniforms o)); [reflexivity|].
  destruct mip; reflexivity.
Qed.

Lemma frameCalls_calledSetters (o : Options) (p : WebGLProgram) (mip : bool) (s : Hook) :
  calledSetters (frameCalls o p mip s) = map_values (uniformSettersRef s).
Proof.
  unfold frameCalls. rewrite !calledSetters_app, calledSetters_callSetters.
  destruct mip; simpl; now rewrite app_nil_r.
Qed.

(** What the set-up of a session does. *)
Lemma setupSession_spec (o : Options) (p : WebGLProgram) (mw mh fc : Z) (ffs : Q)
    (grid : GridDimensions) (s : Hook) :
  let s' := setupSession CHAR_WIDTH_RATIO o p mw mh fc ffs grid s in
  (exists L, log s' = log s ++ L /\
             filter is_draw L = [] /\ calledSetters L = [] /\
             uniformValue "u_ditherMode" L = Some (ditherModeValue o)) /\
  programRef (gpu s') = Some p /\
  uniformLocationsRef (gpu s') = Some {| loc_program := p |} /\
  glRef (gpu s') = glRef (gpu s) /\
  isReady (react s') = true /\
  needsMipmapUpdateRef (gpu s') = MediaType_eqb (mediaType o) Video /\
  (exists a, atlasTextureRef (gpu s') = Some a /\ In (TextureObj a) (liveObjects s')
             /\ (nextHandle (gl (browser s)) <= a)%nat) /\
  (exists v, videoTextureRef (gpu s') = Some v) /\
  dom s' = dom s /\ bench s' = bench s /\
  uniformSettersRef s' = uniformSettersRef s /\
  animationRef s' = animationRef s /\
  pending s' = pending s /\
  nextFrameId (browser s') = nextFrameId (browser s) /\
  emitted s' = emitted s /\
  incl (liveObjects s) (liveObjects s').
Proof.
  unfold setupSession, createVideoTexture, createAsciiAtlas, createFullscreenQuad, create.
  destruct (mediaType o); destruct (videoTextureRef (gpu s)) eqn:E; hook_simpl.
  all: rewrite ?E; hook_simpl.
  all: repeat (rewrite ?calls_call_all, ?calls_call, ?objects_call_all,
                       ?nextHandle_call_all;
               cbn [calls objects nextHandle with_objects call]).
  all: rewrite <- ?app_assoc.
  all: repeat match goal with
       | |- _ /\ _ => split
       | |- exists L, _ ++ ?X = _ ++ L /\ _ => exists X
       end; try reflexivity; eauto.
  all: try (eexists; split; [reflexivity|]; split; [simpl; auto 6 | lia]).
  all: try (intros x Hx; simpl; auto 6).
Qed.

(** The case analysis of [initWebGL], in the order of its returns. *)
Ltac init_cases o s :=
  unfold initWebGL, initFails;
  destruct (canvasRef (dom s)) as [canvas|] eqn:Ecanvas;
    [destruct (containerRef (dom s)) as [container|] eqn:Econtainer;
     [destruct (mediaElementPresent o s) eqn:Epresent;
      [destruct (mediaLoaded o s) eqn:Eloaded;
       [cbn [negb]; destruct (webgl2 canvas) eqn:Ewebgl;
        [unfold compileShader, compiles, createProgram, create; hook_simpl;
         destruct (vertexCompiles (gl (browser s))) eqn:Evertex; hook_simpl;
         destruct (fragmentCompiles (gl (browser s))) eqn:Efragment; hook_simpl;
         try (destruct (programLinks (gl (browser s))) eqn:Elink; hook_simpl)
        | ]
       | ]
      | ]
     | ]
    | ];
  hook_simpl.

Lemma initWebGL_result (o : Options) (s : Hook) :
  fst (initWebGL CHAR_WIDTH_RATIO CELL_ASPECT o s) = negb (initFails o s).
Proof. init_cases o s; reflexivity. Qed.

Ltac with_setup_spec :=
  match goal with
  | |- context [setupSession ?R ?o ?p ?a ?b ?c ?d ?e ?s0] =>
      let SP := fresh "SP" in
      pose proof (setupSession_spec o p a b c d e s0) as SP; cbv zeta in SP;
      set (S1 := setupSession R o p a b c d e s0) in *;
      destruct SP as ((L & SPlog & SPdraw & SPset & SPdither) & SPprog & SPloc
                      & SPgl & SPready & SPmip & (atlas & SPatlas & SPlive & SPfresh)
                      & (vtex & SPvtex) & SPdom & SPbench & SPreg & SPanim
                      & SPpend & SPnext & SPemit & SPincl);
      hook_simpl
  end.

Lemma newCalls_app (s s' : Hook) (L : list GLCall) :
  log s' = log s ++ L -> newCalls s s' = L.
Proof.
  unfold newCalls. intros ->.
  rewrite skipn_app, skipn_all, Nat.sub_diag. reflexivity.
Qed.

Lemma draws_app (s s' : Hook) (L : list GLCall) :
  log s' = log s ++ L ->
  draws s' = (draws s + List.length (filter is_draw L))%nat.
Proof. unfold log, draws. apply drawCount_app. Qed.

(** A run of [initWebGL] that fails leaves the registered session and
    the log as they were. *)
Lemma initWebGL_failure (o : Options) (s : Hook) :
  fst (initWebGL CHAR_WIDTH_RATIO CELL_ASPECT o s) = false ->
  let s' := snd (initWebGL CHAR_WIDTH_RATIO CELL_ASPECT o s) in
  session s' = session s /\ log s' = log s /\ pending s' = pending s.
Proof.
  init_cases o s; intros H; try discriminate; repeat split.
Qed.

(** What no run of [initWebGL] touches, and that it deletes nothing. *)
Lemma initWebGL_frame (o : Options) (s : Hook) :
  let s' := snd (initWebGL CHAR_WIDTH_RATIO CELL_ASPECT o s) in
  bench s' = bench s /\
  uniformSettersRef s' = uniformSettersRef s /\
  animationRef s' = animationRef s /\
  pending s' = pending s /\
  nextFrameId (browser s') = nextFrameId (browser s) /\
  emitted s' = emitted s /\
  videoRef (dom s') = videoRef (dom s) /\
  imageRef (dom s') = imageRef (dom s) /\
  containerRef (dom s') = containerRef (dom s) /\
  incl (liveObjects s) (liveObjects s').
Proof.
  init_cases o s;
    try (repeat split; solve [auto | apply incl_refl | intros x Hx; simpl; auto]).
  with_setup_spec.
  assert (I : incl (objects (gl (browser s))) (objects (gl (browser S1)))).
  { intros x Hx. apply SPincl. simpl. auto. }
  destruct (mediaType o).
  - rewrite SPdom, SPbench, SPreg, SPanim, SPpend, SPnext, SPemit.
    hook_simpl. repeat split; auto.
  - destruct (willRenderFrame S1) eqn:W.
    + destruct (renderFrame_active o S1 W)
        as (p' & _ & _ & Rd & Rb & _ & Ru & Ra & Rp & Rn & Re & Rl & _).
      hook_simpl.
      rewrite Rd, Rb, Ru, Ra, Rp, Rn, Re, Rl.
      rewrite SPdom, SPbench, SPreg, SPanim, SPpend, SPnext, SPemit.
      hook_simpl. repeat split; auto.
    + rewrite (renderFrame_idle o S1 W).
      rewrite SPdom, SPbench, SPreg, SPanim, SPpend, SPnext, SPemit.
      hook_simpl. repeat split; auto.
Qed.

(** What a run of [initWebGL] that succeeds leaves. *)
Lemma initWebGL_success (o : Options) (s : Hook) :
  fst (initWebGL CHAR_WIDTH_RATIO CELL_ASPECT o s) = true ->
  let s' := snd (initWebGL CHAR_WIDTH_RATIO CELL_ASPECT o s) in
  glRef (gpu s') = true /\
  (exists p, programRef (gpu s') = Some p /\
             uniformLocationsRef (gpu s') = Some {| loc_program := p |}) /\
  isReady (react s') = true /\
  uniformValue "u_ditherMode" (log s') = Some (ditherModeValue o) /\
  match mediaType o with
  | Video => draws s' = draws s /\ calledSetters (newCalls s s') = []
  | Image => draws s' = S (draws s) /\
             calledSetters (newCalls s s') = map_values (registry s) /\
             willRender o s' = true
  end.
Proof.
  init_cases o s; intros H; try discriminate. clear H.
  with_setup_spec.
  destruct (mediaType o) eqn:Em.
  - rewrite SPgl, SPprog, SPloc, SPready.
    split; [reflexivity|]. split; [eauto|]. split; [reflexivity|].
    split.
    + rewrite SPlog, uniformValue_app, SPdither. reflexivity.
    + split.
      * change (drawCount (gl (browser S1))) with (draws S1).
        rewrite (draws_app s S1 L SPlog), SPdraw. unfold draws. simpl. lia.
      * rewrite (newCalls_app s S1 L SPlog). exact SPset.
  - assert (Himg : isSome (imageRef (dom s)) = true).
    { unfold mediaElementPresent in Epresent. now rewrite Em in Epresent. }
    assert (W : willRenderFrame S1 = true).
    { unfold willRenderFrame. rewrite SPgl, SPprog, SPloc, SPdom.
      hook_simpl. now rewrite Himg. }
    destruct (renderFrame_active o S1 W)
      as (p' & Rprog & Rlog & Rd & Rb & Rr & Ru & Ra & Rp & Rn & Re & Rl
          & Rgl & Rpr & Rloc & Rv & Rat).
    hook_simpl.
    assert (Hlog : calls (gl (browser (renderFrame o S1)))
                   = calls (gl (browser s))
                     ++ (L ++ frameCalls o p' (needsMipmapUpdateRef (gpu S1)) S1)).
    { rewrite Rlog, SPlog. now rewrite app_assoc. }
    rewrite Rgl, Rpr, Rloc, Rr, SPgl, SPprog, SPloc, SPready.
    split; [reflexivity|]. split; [eauto|]. split; [reflexivity|].
    split.
    + rewrite Rlog, uniformValue_app, frameCalls_uniformValue.
      change (uniformValue "u_ditherMode" (frameUniforms o)) with (@None Q).
      rewrite SPlog, uniformValue_app, SPdither. reflexivity.
    + split; [|split].
      * change (drawCount (gl (browser (renderFrame o S1))))
          with (draws (renderFrame o S1)).
        rewrite (draws_app s _ _ Hlog), filter_app, length_app, SPdraw,
          frameCalls_draws.
        unfold draws. simpl. lia.
      * rewrite (newCalls_app s _ _ Hlog), calledSetters_app, SPset,
          frameCalls_calledSetters, SPreg. reflexivity.
      * unfold willRender, mediaElementPresent, videoStopped.
        rewrite Rgl, Rpr, Rloc, Rd, SPgl, SPprog, SPloc, SPdom, Em.
        hook_simpl. now rewrite Himg.
Qed.

End InitFacts.

(** ** Uniforms written for a draw *)

Section UniformFacts.
Import MediaUtils Grid WebGL Hook Observe.

Lemma newCalls_same (s : Hook) : newCalls s s = [].
Proof. unfold newCalls. apply skipn_all. Qed.

(** A tick either does nothing or logs one drawn frame. *)
Lemma render_log (o : Options) (t : FrameClock) (s : Hook) :
  (willRender o s = false /\ render o t s = s) \/
  (willRender o s = true /\
   exists p mip, programRef (gpu s) = Some p /\
                 log (render o t s) = log s ++ frameCalls o p mip s).
Proof.
  destruct (willRender o s) eqn:W.
  - right. split; [reflexivity|].
    destruct (render_active o t s W) as (p & Hp & Hlog & _). eauto.
  - left. split; [reflexivity | now apply render_idle].
Qed.

Lemma renderFrame_log (o : Options) (s : Hook) :
  (willRenderFrame s = false /\ renderFrame o s = s) \/
  (willRenderFrame s = true /\
   exists p mip, programRef (gpu s) = Some p /\
                 log (renderFrame o s) = log s ++ frameCalls o p mip s).
Proof.
  destruct (willRenderFrame s) eqn:W.
  - right. split; [reflexivity|].
    destruct (renderFrame_active o s W) as (p & Hp & Hlog & _). eauto.
  - left. split; [reflexivity | now apply renderFrame_idle].
Qed.

Lemma frameCalls_drawn_with (o : Options) (p : WebGLProgram) (mip : bool) (s s' : Hook) :
  log s' = log s ++ frameCalls o p mip s -> drawn_with o s s'.
Proof.
  intros Hlog. unfold drawn_with.
  rewrite (draws_app s s' _ Hlog), frameCalls_draws, Hlog.
  rewrite !uniformValue_app, !frameCalls_uniformValue.
  repeat split; try reflexivity. lia.
Qed.

(** C6. Every draw, by a tick of the loop or by the single frame of an
    image, is made with [u_blend] at [blend / 100] and [u_highlight] at
    [highlight / 100] (0.5 for a blend of 50, 1 for a highlight of 100)
    and leaves [u_ditherMode] as initialisation wrote it: 1 for
    ["bayer"], 2 for ["random"], 0 for ["none"] and any other name. *)
Theorem draw_uniforms_normalized (CHAR_WIDTH_RATIO CELL_ASPECT : Q)
    (o : Options) (t : FrameClock) (s : Hook) :
  (render o t s = s \/ drawn_with o s (render o t s)) /\
  (renderFrame o s = s \/ drawn_with o s (renderFrame o s)) /\
  (blend o == 50 -> blend o / 100 == 1 # 2) /\
  (highlight o == 100 -> highlight o / 100 == 1) /\
  (fst (initWebGL CHAR_WIDTH_RATIO CELL_ASPECT o s) = true ->
   uniformValue "u_ditherMode"
     (log (snd (initWebGL CHAR_WIDTH_RATIO CELL_ASPECT o s)))
   = Some (ditherModeValue o)) /\
  (dither o = "bayer" -> ditherModeValue o = 1) /\
  (dither o = "random" -> ditherModeValue o = 2) /\
  (dither o <> "bayer" -> dither o <> "random" -> ditherModeValue o = 0).
Proof.
  split; [|split].
  - destruct (render_log o t s) as [[_ E] | [_ (p & mip & _ & E)]];
      [left; exact E | right; eapply frameCalls_drawn_with; exact E].
  - destruct (renderFrame_log o s) as [[_ E] | [_ (p & mip & _ & E)]];
      [left; exact E | right; eapply frameCalls_drawn_with; exact E].
  - split; [intros ->; reflexivity|].
    split; [intros ->; reflexivity|].
    split; [intros H; apply (initWebGL_success _ _ o s H)|].
    unfold ditherModeValue. repeat split.
    + intros ->. reflexivity.
    + intros ->. reflexivity.
    + intros H1 H2. apply String.eqb_neq in H1, H2. now rewrite H1, H2.
Qed.

Lemma draw_uniforms_normalized_witness :
  drawn_with (sampleOptions Video) videoPlaying
             (render (sampleOptions Video) (sampleClock 32) videoPlaying) /\
  blend (sampleOptions Video) / 100 == 1 # 2 /\
  highlight (sampleOptions Video) / 100 == 1 /\
  uniformValue "u_ditherMode" (log videoReady) = Some 2.
Proof.
  pose proof (draw_uniforms_normalized (3 # 5) (1 # 2) (sampleOptions Video)
                (sampleClock 32) videoPlaying) as (H1 & _ & H3 & H4 & _).
  pose proof (draw_uniforms_normalized (3 # 5) (1 # 2) (sampleOptions Video)
                (sampleClock 32)
                (set_video (Some {| videoWidth := 640; videoHeight := 480;
                                    paused := true; ended := false;
                                    readyState := 1 |})
                   (mount (3 # 5) (1 # 2) (sampleOptions Video)
                          sampleDom sampleContext 0)))
    as (_ & _ & _ & _ & H5 & _).
  split; [|split; [apply H3; reflexivity | split; [apply H4; reflexivity|]]].
  - destruct H1 as [E | D]; [|exact D].
    exfalso. apply (f_equal draws) in E. vm_compute in E. discriminate.
  - apply H5. reflexivity.
Defined.

(** C10. The normalisation does not clamp: whenever a tick or a single
    frame draws, [u_blend] and [u_highlight] hold exactly [blend / 100]
    and [highlight / 100], so an input above 100 gives a uniform above 1
    and a negative input gives a negative uniform. *)
Theorem normalization_does_not_clamp (o : Options) (t : FrameClock) (s s' : Hook) :
  (willRender o s = true /\ s' = render o t s) \/
  (willRenderFrame s = true /\ s' = renderFrame o s) ->
  exists b h : Q,
    uniformValue "u_blend" (log s') = Some b /\
    uniformValue "u_highlight" (log s') = Some h /\
    b == blend o / 100 /\ h == highlight o / 100 /\
    (100 < blend o -> 1 < b) /\ (blend o < 0 -> b < 0) /\
    (100 < highlight o -> 1 < h) /\ (highlight o < 0 -> h < 0).
Proof.
  intros H.
  assert (D : drawn_with o s s').
  { destruct H as [[W ->] | [W ->]].
    - destruct (render_log o t s) as [[W' _] | [_ (p & mip & _ & E)]];
        [congruence | eapply frameCalls_drawn_with; exact E].
    - destruct (renderFrame_log o s) as [[W' _] | [_ (p & mip & _ & E)]];
        [congruence | eapply frameCalls_drawn_with; exact E]. }
  destruct D as (_ & Hb & Hh & _).
  exists (blend o / 100), (highlight o / 100).
  split; [exact Hb|]. split; [exact Hh|].
  split; [reflexivity|]. split; [reflexivity|].
  repeat split; intros Hlt.
  - apply Qlt_shift_div_l; [reflexivity | now rewrite Qmult_1_l].
  - apply Qlt_shift_div_r; [reflexivity | now rewrite Qmult_0_l].
  - apply Qlt_shift_div_l; [reflexivity | now rewrite Qmult_1_l].
  - apply Qlt_shift_div_r; [reflexivity | now rewrite Qmult_0_l].
Qed.

Lemma normalization_does_not_clamp_witness :
  exists b h : Q,
    uniformValue "u_blend"
      (log (render outOfRangeOptions (sampleClock 32) videoPlaying)) = Some b /\
    uniformValue "u_highlight"
      (log (render outOfRangeOptions (sampleClock 32) videoPlaying)) = Some h /\
    1 < b /\ h < 0.
Proof.
  destruct (normalization_does_not_clamp outOfRangeOptions (sampleClock 32)
              videoPlaying (render outOfRangeOptions (sampleClock 32) videoPlaying))
    as (b & h & Hb & Hh & _ & _ & B1 & _ & _ & H2).
  - left. split; reflexivity.
  - exists b, h. repeat split; [exact Hb | exact Hh | apply B1 | apply H2];
      reflexivity.
Defined.

End UniformFacts.

(** ** Contributors called by a tick *)

Section ContributorFacts.
Import MediaUtils Grid WebGL Hook Observe.

(** A tick calls the registered callbacks, in the order of the registry,
    and nothing else. *)
Lemma render_calledSetters (o : Options) (t : FrameClock) (s : Hook) :
  calledSetters (newCalls s (render o t s))
  = if willRender o s then map_values (registry s) else [].
Proof.
  destruct (render_log o t s) as [[W E] | [W (p & mip & _ & E)]]; rewrite W.
  - rewrite E, newCalls_same. reflexivity.
  - rewrite (newCalls_app _ _ _ E). apply frameCalls_calledSetters.
Qed.

Lemma map_set_other (m : list (string * UniformSetter)) (k k' : string)
    (v v' : UniformSetter) :
  k' <> k -> In (k', v') (map_set k v m) -> In (k', v') m.
Proof.
  intros Hne. induction m as [|[k0 v0] m IH]; simpl.
  - intros [E | []]. congruence.
  - destruct (String.eqb k0 k) eqn:E; simpl.
    + intros [E' | Hin]; [congruence | auto].
    + intros [E' | Hin]; auto.
Qed.

(** C7. Registering [f] and then [g] under one id leaves one entry for
    the id, holding [g]; registering and then unregistering an id leaves
    no entry for it (an empty registry when it was the only one); and a
    tick calls only callbacks of the registry it finds: after the
    unregistration, only those still registered under another id. *)
Theorem registry_replace_and_remove (o : Options) (t : FrameClock) (s : Hook)
    (id : string) (f g : UniformSetter) :
  NoDup (map fst (registry s)) ->
  let replaced := registerUniformSetter id g (registerUniformSetter id f s) in
  let removed := unregisterUniformSetter id (registerUniformSetter id f s) in
  entries id (registry replaced) = 1%nat /\
  map_get id (registry replaced) = Some g /\
  entries id (registry removed) = 0%nat /\
  map_get id (registry removed) = None /\
  (registry s = [] -> registry removed = []) /\
  (forall cb, In cb (calledSetters (newCalls removed (render o t removed))) ->
              exists id', id' <> id /\ map_get id' (registry s) = Some cb) /\
  (forall cb, In cb (calledSetters (newCalls replaced (render o t replaced))) ->
              exists id', map_get id' (registry replaced) = Some cb).
Proof.
  intros ND replaced removed. subst replaced removed. hook_simpl.
  assert (ND1 : NoDup (map fst (map_set id f (uniformSettersRef s))))
    by now apply map_set_NoDup.
  assert (ND2 : NoDup (map fst (map_set id g (map_set id f (uniformSettersRef s)))))
    by now apply map_set_NoDup.
  split; [now apply entries_set|].
  split; [apply map_get_set_same|].
  split; [apply entries_delete_same|].
  split; [apply map_get_delete_same|].
  split.
  { intros ->. simpl. now rewrite String.eqb_refl. }
  split.
  - intros cb. rewrite render_calledSetters.
    destruct (willRender _ _); [|intros []].
    unfold registry, map_values. hook_simpl. intros Hin.
    apply in_map_iff in Hin. destruct Hin as ([k v] & <- & Hin).
    apply map_delete_In in Hin. destruct Hin as [Hin Hk]. simpl in Hk.
    exists k. split; [exact Hk|].
    apply map_get_In; [exact ND|].
    eapply map_set_other; eauto.
  - intros cb. rewrite render_calledSetters.
    destruct (willRender _ _); [|intros []].
    unfold registry, map_values. hook_simpl. intros Hin.
    apply in_map_iff in Hin. destruct Hin as ([k v] & <- & Hin).
    exists k. now apply map_get_In.
Qed.

Lemma registry_replace_and_remove_witness :
  let s := registerUniformSetter "ripple" 7%nat videoPlaying in
  let replaced := registerUniformSetter "mouse" 2%nat
                    (registerUniformSetter "mouse" 1%nat s) in
  let removed := unregisterUniformSetter "mouse"
                    (registerUniformSetter "mouse" 1%nat s) in
  entries "mouse" (registry replaced) = 1%nat /\
  map_get "mouse" (registry replaced) = Some 2%nat /\
  map_get "mouse" (registry removed) = None /\
  calledSetters (newCalls removed
                   (render (sampleOptions Video) (sampleClock 32) removed))
  = [7%nat].
Proof.
  pose proof (registry_replace_and_remove (sampleOptions Video) (sampleClock 32)
                (registerUniformSetter "ripple" 7%nat videoPlaying)
                "mouse" 1%nat 2%nat) as H.
  assert (ND : NoDup (map fst (registry
                 (registerUniformSetter "ripple" 7%nat videoPlaying)))).
  { vm_compute. constructor; [intros [] | constructor]. }
  destruct (H ND) as (H1 & H2 & _ & H4 & _).
  cbv zeta.
  split; [exact H1 | split; [exact H2 | split; [exact H4 | vm_compute; reflexivity]]].
Defined.

End ContributorFacts.

(** ** Frame statistics *)

Section StatsFacts.
Import MediaUtils Grid WebGL Hook Observe.

Variable CHAR_WIDTH_RATIO : Q.
Variable CELL_ASPECT : Q.

Local Abbreviation step := (step CHAR_WIDTH_RATIO CELL_ASPECT).
Local Abbreviation run := (run CHAR_WIDTH_RATIO CELL_ASPECT).
Local Abbreviation initWebGL := (initWebGL CHAR_WIDTH_RATIO CELL_ASPECT).

Lemma pushFrameTime_length (x : Q) (l : list Q) :
  (List.length l <= 60)%nat -> (List.length (pushFrameTime x l) <= 60)%nat.
Proof.
  intros H. unfold pushFrameTime.
  destruct (60 <? List.length (l ++ [x]))%nat eqn:E.
  - destruct (l ++ [x]) as [|y l'] eqn:E'; simpl; [lia|].
    apply (f_equal (@List.length Q)) in E'.
    rewrite length_app in E'. simpl in E'. lia.
  - apply Nat.ltb_ge in E. exact E.
Qed.

(** The statistics of one frame: the timing is pushed on the bounded
    history; a snapshot is emitted when a second has passed since
    [lastFpsTimeRef], which then takes the current time. *)
Lemma trackPerformance_stats (t : FrameClock) (s : Hook) :
  let s' := trackPerformance t s in
  frameTimesRef (bench s')
  = pushFrameTime (frameEnd t - frameStart t) (frameTimesRef (bench s)) /\
  ((~ 1000 <= now t - lastFpsTimeRef (bench s) /\
    emitted s' = emitted s /\
    lastFpsTimeRef (bench s') = lastFpsTimeRef (bench s)) \/
   (1000 <= now t - lastFpsTimeRef (bench s) /\
    emitted s' = emitted s ++ [stats (react s')] /\
    lastFpsTimeRef (bench s') = now t /\
    frameCountRef (bench s') = 0%Z /\
    fps (stats (react s')) = (frameCountRef (bench s) + 1)%Z /\
    frameTime (stats (react s'))
    = sumTimes (frameTimesRef (bench s'))
      / inject_Z (Z.of_nat (List.length (frameTimesRef (bench s')))))).
Proof.
  unfold trackPerformance.
  destruct (Qle_bool 1000 (now t - lastFpsTimeRef (bench s))) eqn:E; hook_simpl.
  - split; [reflexivity|]. right. apply Qle_bool_iff in E.
    repeat split; auto.
  - split; [reflexivity|]. left. split; [|split; reflexivity].
    intros H. apply Qle_bool_iff in H. congruence.
Qed.

Lemma trackPerformance_congr (t : FrameClock) (a b : Hook) :
  bench a = bench b -> emitted a = emitted b -> react a = react b ->
  bench (trackPerformance t a) = bench (trackPerformance t b) /\
  emitted (trackPerformance t a) = emitted (trackPerformance t b) /\
  react (trackPerformance t a) = react (trackPerformance t b).
Proof.
  unfold trackPerformance, emitted. intros Hb He Hr. rewrite Hb.
  destruct (Qle_bool _ _); hook_simpl; rewrite ?He, ?Hr; repeat split; congruence.
Qed.

(** A tick that draws updates the statistics as [trackPerformance] does. *)
Lemma render_stats (o : Options) (t : FrameClock) (s : Hook) :
  willRender o s = true ->
  bench (render o t s) = bench (trackPerformance t s) /\
  emitted (render o t s) = emitted (trackPerformance t s) /\
  react (render o t s) = react (trackPerformance t s).
Proof.
  intros W. destruct (willRender_program _ _ W) as (p & l & H1 & H2 & H3 & H4 & H5).
  unfold render. rewrite H1, H2, H3, H4, H5. cbn [negb].
  match goal with |- context [trackPerformance t ?x] =>
    destruct (trackPerformance_congr t x s) as (Cb & Ce & Cr)
  end.
  1-3: destruct (MediaType_eqb (mediaType o) Video && needsMipmapUpdateRef _);
       reflexivity.
  unfold emitted in *. hook_simpl. auto.
Qed.

Lemma render_history (o : Options) (t : FrameClock) (s : Hook) :
  history_bounded s -> history_bounded (render o t s).
Proof.
  unfold history_bounded. intros H.
  destruct (willRender o s) eqn:W.
  - destruct (render_stats o t s W) as (-> & _).
    destruct (trackPerformance_stats t s) as (-> & _).
    now apply pushFrameTime_length.
  - now rewrite (render_idle o t s W).
Qed.

(** *** Events other than a display refresh *)

Lemma drawCount_call_other (c : GLCall) (g : Context) :
  is_draw c = false -> drawCount (call c g) = drawCount g.
Proof.
  intros H. unfold drawCount. rewrite calls_call, filter_app. simpl.
  rewrite H. simpl. now rewrite app_nil_r.
Qed.

Lemma cleanupWebGL_frame (s : Hook) :
  let s' := cleanupWebGL s in
  bench s' = bench s /\ emitted s' = emitted s /\ draws s' = draws s /\
  registry s' = registry s /\ animationRef s' = animationRef s /\
  dom s' = dom s /\
  pending s' = filter (fun id => negb (Nat.eqb id (animationRef s))) (pending s).
Proof.
  unfold cleanupWebGL, deleteTexture, deleteProgram, remove, draws.
  destruct (glRef (gpu s)); [|hook_simpl; repeat split].
  destruct (videoTextureRef (gpu s)); hook_simpl;
    destruct (atlasTextureRef (gpu s)); hook_simpl;
    destruct (programRef (gpu s)); hook_simpl;
    unfold drawCount; repeat split; try reflexivity;
    cbn [calls call with_objects];
    rewrite !filter_app; cbn [filter is_draw]; rewrite !app_nil_r; reflexivity.
Qed.

Lemma reinitialize_cases (o : Options) (s : Hook) :
  reinitialize CHAR_WIDTH_RATIO CELL_ASPECT o s = s \/
  reinitialize CHAR_WIDTH_RATIO CELL_ASPECT o s = snd (initWebGL o s).
Proof.
  unfold reinitialize.
  destruct (mediaType o).
  - destruct (videoRef (dom s)) as [v|]; [|auto].
    destruct (1 <=? readyState v)%Z; auto.
  - destruct (imageRef (dom s)) as [i|]; [|auto].
    destruct (complete i); auto.
Qed.

Lemma handleImageLoad_stats (o : Options) (s : Hook) :
  bench (handleImageLoad CHAR_WIDTH_RATIO CELL_ASPECT o s) = bench s /\
  emitted (handleImageLoad CHAR_WIDTH_RATIO CELL_ASPECT o s) = emitted s.
Proof.
  unfold handleImageLoad.
  destruct (initWebGL_frame CHAR_WIDTH_RATIO CELL_ASPECT o s)
    as (Hb & _ & _ & _ & _ & He & _).
  destruct (0 <? map_size _)%nat; hook_simpl; auto.
Qed.

(** Only a display refresh touches the statistics. *)
Lemma step_stats (o : Options) (e : Event) (s : Hook) :
  (forall t, e <> AnimationFrame t) ->
  bench (step o e s) = bench s /\ emitted (step o e s) = emitted s.
Proof.
  intros He. destruct e; cbn [Hook.step].
  - destruct (mediaType o); [|auto]. destruct (videoRef (dom s)) as [v|]; [|auto].
    unfold handleLoadedMetadata.
    match goal with |- context [Hook.initWebGL _ _ o ?x] =>
      destruct (initWebGL_frame CHAR_WIDTH_RATIO CELL_ASPECT o x)
        as (Hb & _ & _ & _ & _ & Hem & _) end.
    hook_simpl. auto.
  - destruct (mediaType o); [|auto]. destruct (videoRef (dom s)); auto.
  - destruct (mediaType o); [|auto]. destruct (videoRef (dom s)); auto.
  - destruct (mediaType o); [|auto]. destruct (videoRef (dom s)); auto.
  - destruct (mediaType o); [auto|]. destruct (imageRef (dom s)) as [i|]; [|auto].
    match goal with |- context [handleImageLoad _ _ o ?x] =>
      destruct (handleImageLoad_stats o x) as (Hb & Hem) end.
    hook_simpl. auto.
  - destruct (containerRef (dom s)); [|auto].
    match goal with |- context [reinitialize _ _ o ?x] =>
      destruct (reinitialize_cases o x) as [-> | ->];
      [hook_simpl; auto|];
      destruct (initWebGL_frame CHAR_WIDTH_RATIO CELL_ASPECT o x)
        as (Hb & _ & _ & _ & _ & Hem & _) end.
    hook_simpl. auto.
  - exfalso. now apply (He t).
  - auto.
  - auto.
  - unfold unmount.
    destruct (cleanupWebGL_frame (cancelAnimationFrame s)) as (Hb & Hem & _).
    hook_simpl. auto.
Qed.

Lemma animationFrame_history (o : Options) (t : FrameClock) (s : Hook) :
  history_bounded s -> history_bounded (animationFrame o t s).
Proof.
  unfold animationFrame. intros H.
  assert (H' : history_bounded (clearPending s)) by exact H.
  revert H'. generalize (clearPending s).
  induction (pendingFrames (browser s)) as [|id ids IH]; intros s0 H0; simpl.
  - exact H0.
  - apply IH. now apply render_history.
Qed.

Lemma step_history (o : Options) (e : Event) (s : Hook) :
  history_bounded s -> history_bounded (step o e s).
Proof.
  intros H.
  destruct (match e with AnimationFrame _ => true | _ => false end) eqn:K.
  - destruct e; try discriminate. now apply animationFrame_history.
  - assert (He : forall t, e <> AnimationFrame t)
      by (intros t ->; discriminate).
    unfold history_bounded. rewrite (proj1 (step_stats o e s He)). exact H.
Qed.

Lemma run_history (o : Options) (es : list Event) (s : Hook) :
  history_bounded s -> history_bounded (run o es s).
Proof.
  revert s. induction es as [|e es IH]; intros s H; simpl; [exact H|].
  apply IH. now apply step_history.
Qed.

Lemma mount_history (o : Options) (d : Dom) (g : Context) (t0 : Q) :
  history_bounded (mount CHAR_WIDTH_RATIO CELL_ASPECT o d g t0).
Proof.
  unfold mount, mountEffects, history_bounded.
  match goal with |- context [reinitialize _ _ o ?x] =>
    assert (Hx : bench x = bench (initialHook d g t0));
    [|destruct (reinitialize_cases o x) as [-> | ->];
      [|rewrite (proj1 (initWebGL_frame CHAR_WIDTH_RATIO CELL_ASPECT o x))];
      rewrite Hx; simpl; lia]
  end.
  destruct (mediaType o).
  - destruct (videoRef (dom (initialHook d g t0))) as [v|]; [|reflexivity].
    destruct (1 <=? readyState v)%Z; [|reflexivity].
    unfold handleLoadedMetadata.
    apply (initWebGL_frame CHAR_WIDTH_RATIO CELL_ASPECT o).
  - destruct (imageRef (dom (initialHook d g t0))) as [i|]; [|reflexivity].
    destruct (complete i && negb (naturalWidth i =? 0)%Z); [|reflexivity].
    apply handleImageLoad_stats.
Qed.

(** C9. After any run of events from the mount the history of frame
    timings holds at most 60 samples, and a tick keeps it so; a tick
    emits a snapshot only when at least 1000 ms separate its reading of
    the clock from [lastFpsTimeRef], the time of the previous emission
    (of the mount before the first one), and the snapshot holds the
    frames counted since then and the mean of the retained window; no
    other event emits or moves [lastFpsTimeRef]. *)
Theorem frame_history_and_stats_window (o : Options) :
  (forall d g t0 es,
      history_bounded (run o es (mount CHAR_WIDTH_RATIO CELL_ASPECT o d g t0))) /\
  (forall t s, history_bounded s -> history_bounded (render o t s)) /\
  (forall t s,
      let s' := render o t s in
      (emitted s' = emitted s /\
       lastFpsTimeRef (bench s') = lastFpsTimeRef (bench s)) \/
      (1000 <= now t - lastFpsTimeRef (bench s) /\
       emitted s' = emitted s ++ [stats (react s')] /\
       lastFpsTimeRef (bench s') = now t /\
       fps (stats (react s')) = (frameCountRef (bench s) + 1)%Z /\
       frameTime (stats (react s'))
       = sumTimes (frameTimesRef (bench s'))
         / inject_Z (Z.of_nat (List.length (frameTimesRef (bench s')))))) /\
  (forall e s,
      (forall t, e <> AnimationFrame t) ->
      emitted (step o e s) = emitted s /\
      lastFpsTimeRef (bench (step o e s)) = lastFpsTimeRef (bench s)).
Proof.
  split; [|split; [|split]].
  - intros d g t0 es. apply run_history, mount_history.
  - intros t s. apply render_history.
  - intros t s. cbv zeta.
    destruct (willRender o s) eqn:W.
    + destruct (render_stats o t s W) as (-> & -> & ->).
      destruct (trackPerformance_stats t s)
        as (_ & [(_ & He & Hl) | (Hle & He & Hl & _ & Hf & Ha)]).
      * left. auto.
      * right. auto.
    + rewrite (render_idle o t s W). left. auto.
  - intros e s He. destruct (step_stats o e s He) as (Hb & Hem).
    rewrite Hb. auto.
Qed.

End StatsFacts.

Lemma frame_history_and_stats_window_witness :
  Observe.history_bounded
    (Hook.render (Observe.sampleOptions MediaUtils.Video)
                 (Observe.sampleClock 32) Observe.videoPlaying) /\
  Observe.emitted
    (Hook.step (3 # 5) (1 # 2) (Observe.sampleOptions MediaUtils.Video)
               Hook.Pause Observe.videoPlaying)
  = Observe.emitted Observe.videoPlaying.
Proof.
  destruct (frame_history_and_stats_window (3 # 5) (1 # 2)
              (Observe.sampleOptions MediaUtils.Video))
    as (_ & H2 & _ & H4).
  split.
  - apply H2. unfold Observe.history_bounded. vm_compute. lia.
  - apply H4. intros t. discriminate.
Defined.

(** ** The render loop *)

Section LoopFacts.
Import MediaUtils Grid WebGL Hook Observe.

Variable CHAR_WIDTH_RATIO : Q.
Variable CELL_ASPECT : Q.

Local Abbreviation step := (step CHAR_WIDTH_RATIO CELL_ASPECT).
Local Abbreviation run := (run CHAR_WIDTH_RATIO CELL_ASPECT).
Local Abbreviation initWebGL := (initWebGL CHAR_WIDTH_RATIO CELL_ASPECT).
Local Abbreviation handleImageLoad := (handleImageLoad CHAR_WIDTH_RATIO CELL_ASPECT).

Lemma draws_of_log (s s' : Hook) : log s' = log s -> draws s' = draws s.
Proof. unfold draws, drawCount, log. now intros ->. Qed.

(** Initialising for a video draws nothing. *)
Lemma initWebGL_video_draws (o : Options) (s : Hook) :
  mediaType o = Video -> draws (snd (initWebGL o s)) = draws s.
Proof.
  intros Hm. destruct (fst (initWebGL o s)) eqn:F.
  - destruct (initWebGL_success CHAR_WIDTH_RATIO CELL_ASPECT o s F)
      as (_ & _ & _ & _ & H).
    rewrite Hm in H. apply H.
  - apply draws_of_log.
    apply (initWebGL_failure CHAR_WIDTH_RATIO CELL_ASPECT o s F).
Qed.

Lemma initWebGL_pending (o : Options) (s : Hook) :
  pending (snd (initWebGL o s)) = pending s /\
  animationRef (snd (initWebGL o s)) = animationRef s.
Proof.
  destruct (initWebGL_frame CHAR_WIDTH_RATIO CELL_ASPECT o s)
    as (_ & _ & Ha & Hp & _). auto.
Qed.

(** A refresh with nothing pending does nothing. *)
Lemma animationFrame_idle (o : Options) (t : FrameClock) (s : Hook) :
  pending s = [] ->
  pending (animationFrame o t s) = [] /\ draws (animationFrame o t s) = draws s.
Proof.
  unfold animationFrame, pending. intros ->. simpl. split; reflexivity.
Qed.

(** With a video, and nothing pending, no event but [Play] draws or
    schedules. *)
Lemma quiet_step (o : Options) (e : Event) (s : Hook) :
  mediaType o = Video -> e <> Play -> pending s = [] ->
  pending (step o e s) = [] /\ draws (step o e s) = draws s.
Proof.
  intros Hm He Hp. destruct e; cbn [Hook.step]; rewrite ?Hm.
  - destruct (videoRef (dom s)) as [v|]; [|auto].
    unfold handleLoadedMetadata.
    match goal with |- context [Hook.initWebGL _ _ o ?x] =>
      rewrite (proj1 (initWebGL_pending o x)),
              (initWebGL_video_draws o x Hm) end.
    auto.
  - congruence.
  - destruct (videoRef (dom s)) as [v|]; [|auto].
    unfold handlePause, pending in *. hook_simpl. rewrite Hp. auto.
  - destruct (videoRef (dom s)) as [v|]; [|auto].
    unfold handleEnded, pending in *. hook_simpl. rewrite Hp. auto.
  - auto.
  - destruct (containerRef (dom s)); [|auto].
    match goal with |- context [reinitialize _ _ o ?x] =>
      destruct (reinitialize_cases CHAR_WIDTH_RATIO CELL_ASPECT o x) as [-> | ->];
      [auto|];
      rewrite (proj1 (initWebGL_pending o x)),
              (initWebGL_video_draws o x Hm) end.
    auto.
  - now apply animationFrame_idle.
  - auto.
  - auto.
  - unfold unmount.
    destruct (cleanupWebGL_frame (cancelAnimationFrame s))
      as (_ & _ & Hd & _ & _ & _ & Hpe).
    rewrite Hpe, Hd. unfold pending in *. hook_simpl. rewrite Hp. auto.
Qed.

Lemma quiet_run (o : Options) (es : list Event) (s : Hook) :
  mediaType o = Video -> ~ In Play es -> pending s = [] ->
  pending (run o es s) = [] /\ draws (run o es s) = draws s.
Proof.
  intros Hm. revert s. induction es as [|e es IH]; intros s Hes Hp; simpl.
  - auto.
  - destruct (quiet_step o e s Hm) as (Hp' & Hd'); [intros ->; apply Hes; now left | exact Hp |].
    destruct (IH (step o e s)) as (Hp'' & Hd''); [intros H; apply Hes; now right | exact Hp' |].
    split; [exact Hp'' | congruence].
Qed.

Lemma refreshes_idle (o : Options) (ts : list FrameClock) (s : Hook) :
  pending s = [] ->
  pending (run o (refreshes ts) s) = [] /\ draws (run o (refreshes ts) s) = draws s.
Proof.
  revert s. induction ts as [|t ts IH]; intros s Hp; simpl; [auto|].
  destruct (animationFrame_idle o t s Hp) as (Hp1 & Hd1).
  destruct (IH _ Hp1) as (Hp2 & Hd2). split; [exact Hp2 | congruence].
Qed.

Lemma cancel_single_loop (s : Hook) :
  single_loop s -> pending (cancelAnimationFrame s) = [].
Proof.
  unfold single_loop, pending. hook_simpl. intros [-> | ->]; simpl; [reflexivity|].
  now rewrite Nat.eqb_refl.
Qed.

(** The loop keeps owning its one request through every event of a
    video, as long as [play] arrives with no request pending. *)
Lemma single_loop_step (o : Options) (e : Event) (s : Hook) :
  mediaType o = Video -> single_loop s ->
  (e = Play -> pending s = []) ->
  single_loop (step o e s).
Proof.
  intros Hm Hl Hplay.
  destruct e; cbn [Hook.step]; rewrite ?Hm; try exact Hl.
  - destruct (videoRef (dom s)) as [v|]; [|exact Hl].
    unfold handleLoadedMetadata, single_loop.
    match goal with |- context [Hook.initWebGL _ _ o ?x] =>
      destruct (initWebGL_pending o x) as (-> & ->) end.
    exact Hl.
  - destruct (videoRef (dom s)) as [v|]; [|exact Hl].
    right. unfold handlePlay, pending in *. hook_simpl.
    rewrite (Hplay eq_refl). reflexivity.
  - destruct (videoRef (dom s)) as [v|]; [|exact Hl].
    left. unfold handlePause. apply cancel_single_loop. exact Hl.
  - destruct (videoRef (dom s)) as [v|]; [|exact Hl].
    left. unfold handleEnded. apply cancel_single_loop. exact Hl.
  - destruct (containerRef (dom s)); [|exact Hl].
    match goal with |- context [reinitialize _ _ o ?x] =>
      destruct (reinitialize_cases CHAR_WIDTH_RATIO CELL_ASPECT o x) as [-> | ->];
      [exact Hl|];
      unfold single_loop;
      destruct (initWebGL_pending o x) as (-> & ->) end.
    exact Hl.
  - destruct Hl as [Hp | Hp].
    + left. now apply animationFrame_idle.
    + unfold animationFrame. unfold pending in Hp. rewrite Hp. cbn [fold_left].
      destruct (willRender o (clearPending s)) eqn:W.
      * destruct (render_active o t (clearPending s) W)
          as (p & _ & _ & Hpend & Hanim & _).
        right. rewrite Hpend, Hanim. reflexivity.
      * rewrite (render_idle o t _ W). left. reflexivity.
  - left. unfold unmount.
    destruct (cleanupWebGL_frame (cancelAnimationFrame s))
      as (_ & _ & _ & _ & _ & _ & Hpe).
    rewrite Hpe, (cancel_single_loop s Hl). reflexivity.
Qed.


(** *** An image: one frame, or a running loop *)

Lemma willRender_requestAnimationFrame (o : Options) (s : Hook) :
  willRender o (requestAnimationFrame s) = willRender o s.
Proof. reflexivity. Qed.

Lemma willRender_clearPending (o : Options) (s : Hook) :
  willRender o (clearPending s) = willRender o s.
Proof. reflexivity. Qed.

(** A refresh of a running loop draws one frame and schedules the next. *)
Lemma tick_continues (o : Options) (t : FrameClock) (s : Hook) :
  mediaType o = Image ->
  willRender o s = true -> pending s = [animationRef s] ->
  let s' := animationFrame o t s in
  willRender o s' = true /\ pending s' = [animationRef s'] /\
  draws s' = S (draws s).
Proof.
  intros Hm W Hp. unfold animationFrame.
  unfold pending in Hp. rewrite Hp. cbn [fold_left].
  assert (W' : willRender o (clearPending s) = true) by exact W.
  destruct (render_active o t (clearPending s) W')
    as (p & Hprog & Hlog & Hpend & Hanim & _ & Hdom & _ & _ & Hgl & Hpr & Hloc & _).
  cbv zeta. split; [|split].
  - destruct (willRender_program o (clearPending s) W')
      as (p0 & l0 & _ & _ & G3 & G4 & _).
    unfold willRender, mediaElementPresent, videoStopped in *.
    rewrite Hgl, Hpr, Hloc, G3, Hdom, Hm. rewrite Hm in G4. rewrite G4.
    reflexivity.
  - rewrite Hpend, Hanim. reflexivity.
  - rewrite (draws_app _ _ _ Hlog), frameCalls_draws.
    change (draws (clearPending s)) with (draws s). lia.
Qed.

Lemma ticks_continue (o : Options) (ts : list FrameClock) (s : Hook) :
  mediaType o = Image ->
  willRender o s = true -> pending s = [animationRef s] ->
  let s' := run o (refreshes ts) s in
  willRender o s' = true /\ pending s' = [animationRef s'] /\
  draws s' = (draws s + List.length ts)%nat.
Proof.
  intros Hm. revert s. induction ts as [|t ts IH]; intros s W Hp; simpl.
  - repeat split; auto.
  - destruct (tick_continues o t s Hm W Hp) as (W1 & Hp1 & Hd1).
    destruct (IH _ W1 Hp1) as (W2 & Hp2 & Hd2).
    repeat split; auto. rewrite Hd2, Hd1. lia.
Qed.


(** C3. When an image has loaded and initialisation succeeds with the
    loop stopped: without a registered contributor the engine draws once
    and no display refresh draws again, nothing being scheduled; with at
    least one registered contributor a tick is scheduled, and every
    display refresh draws one frame and schedules the next. *)
Theorem image_single_frame_or_loop (o : Options) (s : Hook) (ts : list FrameClock) :
  mediaType o = Image ->
  fst (initWebGL o s) = true ->
  pending s = [] ->
  let loaded := handleImageLoad o s in
  let later := run o (refreshes ts) loaded in
  (registry s = [] ->
   draws loaded = S (draws s) /\ pending loaded = [] /\
   draws later = draws loaded /\ pending later = []) /\
  (registry s <> [] ->
   draws loaded = S (draws s) /\ pending loaded = [animationRef loaded] /\
   draws later = (draws loaded + List.length ts)%nat /\
   pending later = [animationRef later]).
Proof.
  intros Hm F Hp loaded later. subst later loaded. unfold Hook.handleImageLoad.
  destruct (initWebGL_success CHAR_WIDTH_RATIO CELL_ASPECT o s F)
    as (_ & _ & _ & _ & H).
  rewrite Hm in H. destruct H as (Hd & _ & W).
  destruct (initWebGL_frame CHAR_WIDTH_RATIO CELL_ASPECT o s)
    as (_ & Hreg & _ & Hpend & _).
  rewrite Hp in Hpend.
  set (s1 := snd (initWebGL o s)) in *.
  rewrite Hreg. unfold registry. split.
  - intros ->. simpl.
    destruct (refreshes_idle o ts s1 Hpend) as (Hp2 & Hd2). auto.
  - intros Hne.
    destruct (uniformSettersRef s) as [|x m]; [congruence|]. simpl.
    assert (Hp1 : pending (requestAnimationFrame s1)
                  = [animationRef (requestAnimationFrame s1)]).
    { unfold pending in *. hook_simpl. rewrite Hpend. reflexivity. }
    destruct (ticks_continue o ts (requestAnimationFrame s1) Hm W Hp1)
      as (_ & Hp2 & Hd2).
    repeat split; auto.
Qed.

End LoopFacts.


Lemma image_single_frame_or_loop_witness :
  let o := Observe.sampleOptions MediaUtils.Image in
  let ts := [Observe.sampleClock 16; Observe.sampleClock 32] in
  let still := Hook.handleImageLoad (3 # 5) (1 # 2) o Observe.imageLoaded in
  let lively := Hook.handleImageLoad (3 # 5) (1 # 2) o
                  (Hook.registerUniformSetter "mouse" 1%nat Observe.imageLoaded) in
  (Observe.draws still = 1%nat /\ Observe.pending still = [] /\
   Observe.draws (Hook.run (3 # 5) (1 # 2) o (Observe.refreshes ts) still) = 1%nat) /\
  (Observe.pending lively = [Hook.animationRef lively] /\
   Observe.draws (Hook.run (3 # 5) (1 # 2) o (Observe.refreshes ts) lively) = 3%nat).
Proof.
  cbv zeta. split.
  - destruct (image_single_frame_or_loop (3 # 5) (1 # 2)
                (Observe.sampleOptions MediaUtils.Image) Observe.imageLoaded
                [Observe.sampleClock 16; Observe.sampleClock 32])
      as (H & _); try (vm_compute; reflexivity).
    destruct H as (H1 & H2 & H3 & _); [vm_compute; reflexivity|].
    split; [exact H1 | split; [exact H2 | now rewrite H3, H1]].
  - destruct (image_single_frame_or_loop (3 # 5) (1 # 2)
                (Observe.sampleOptions MediaUtils.Image)
                (Hook.registerUniformSetter "mouse" 1%nat Observe.imageLoaded)
                [Observe.sampleClock 16; Observe.sampleClock 32])
      as (_ & H); try (vm_compute; reflexivity).
    destruct H as (H1 & H2 & H3 & _); [vm_compute; discriminate|].
    split; [exact H2 | now rewrite H3, H1].
Defined.

(** ** Sessions across initialisations *)

Section SessionFacts.
Import MediaUtils Grid WebGL Hook Observe.

(** C1, on the code: a second initialisation registers a new program
    ([9]) and a new atlas texture ([11]) and deletes nothing, so the
    program ([3]) and the atlas texture ([6]) of the first session stay
    alive with no reference left to them; the cleanup of the unmount
    deletes the objects of the last session only. *)
Theorem reinitialization_leaks_old_session :
  session videoReady
  = (true, Some 3%nat, Some 5%nat, Some 6%nat, Some {| loc_program := 3%nat |}) /\
  session videoResized
  = (true, Some 9%nat, Some 5%nat, Some 11%nat, Some {| loc_program := 9%nat |}) /\
  In (ProgramObj 3%nat) (liveObjects videoResized) /\
  In (TextureObj 6%nat) (liveObjects videoResized) /\
  ~ In (DeleteProgram 3%nat) (log videoResized) /\
  ~ In (DeleteTexture 6%nat) (log videoResized) /\
  In (ProgramObj 3%nat) (liveObjects (unmount videoResized)) /\
  In (TextureObj 6%nat) (liveObjects (unmount videoResized)) /\
  ~ In (ProgramObj 9%nat) (liveObjects (unmount videoResized)).
Proof.
  split; [vm_compute; reflexivity|].
  split; [vm_compute; reflexivity|].
  split; [vm_compute; tauto|].
  split; [vm_compute; tauto|].
  split; [vm_compute; intuition discriminate|].
  split; [vm_compute; intuition discriminate|].
  split; [vm_compute; tauto|].
  split; [vm_compute; tauto|].
  vm_compute. intuition discriminate.
Qed.

(** No run of [initWebGL] deletes an object. *)
Lemma initWebGL_deletes_nothing (R A : Q) (o : Options) (s : Hook) :
  incl (liveObjects s) (liveObjects (snd (initWebGL R A o s))).
Proof. apply (initWebGL_frame R A o s). Qed.

(** C2 as stated fails: on a ready session, a run that fails at the
    compilation of the fragment shader returns [false], leaves the
    session ready with its program registered, and leaves alive the
    vertex shader it created. *)
Lemma failed_initialization_counterexample :
  let r := initWebGL (3 # 5) (1 # 2) (sampleOptions Video) videoRejected in
  initFails (sampleOptions Video) videoRejected = true /\
  fst r = false /\
  isReady (react (snd r)) = true /\
  programRef (gpu (snd r)) = Some 3%nat /\
  In (ShaderObj 7%nat) (liveObjects (snd r)) /\
  ~ In (ShaderObj 7%nat) (liveObjects videoRejected).
Proof.
  cbv zeta.
  split; [vm_compute; reflexivity|].
  split; [vm_compute; reflexivity|].
  split; [vm_compute; reflexivity|].
  split; [vm_compute; reflexivity|].
  split; [vm_compute; tauto|].
  vm_compute. intuition discriminate.
Qed.

(** The causes of failure, spelled out. *)
Lemma initFails_causes (o : Options) (s : Hook) :
  initFails o s = true <->
  canvasRef (dom s) = None \/ containerRef (dom s) = None \/
  mediaElementPresent o s = false \/ mediaLoaded o s = false \/
  (exists c, canvasRef (dom s) = Some c /\ webgl2 c = false) \/
  vertexCompiles (gl (browser s)) = false \/
  fragmentCompiles (gl (browser s)) = false \/
  programLinks (gl (browser s)) = false.
Proof.
  unfold initFails.
  destruct (canvasRef (dom s)) as [c|]; [|tauto].
  destruct (containerRef (dom s)) as [d|]; [|tauto].
  destruct (mediaElementPresent o s), (mediaLoaded o s), (webgl2 c) eqn:E,
           (vertexCompiles (gl (browser s))), (fragmentCompiles (gl (browser s))),
           (programLinks (gl (browser s))); simpl;
    try (split; [intros _|reflexivity]; eauto 10; fail).
  split; [discriminate|].
  intros [H | [H | [H | [H | [(c' & H1 & H2) | [H | [H | H]]]]]]];
    try discriminate. congruence.
Qed.

(** C2, amended. A run of [initWebGL] returns [false] exactly when a
    cause of failure is present: the canvas, the container or the media
    is missing or not loaded, the context cannot be obtained, a shader
    does not compile or the program does not link.  Such a run logs none
    of the texture, uniform and draw calls of a set-up, schedules
    nothing, and leaves the ready flag and the registered program,
    textures and uniform locations as they were: a session that was not
    ready stays not ready. *)
Theorem failed_initialization_keeps_session (R A : Q) (o : Options) (s : Hook) :
  let r := initWebGL R A o s in
  (initFails o s = true <-> fst r = false) /\
  (fst r = false ->
   session (snd r) = session s /\
   log (snd r) = log s /\
   pending (snd r) = pending s /\
   (isReady (react s) = false -> isReady (react (snd r)) = false)).
Proof.
  intros r. subst r. split.
  - rewrite initWebGL_result. destruct (initFails o s); simpl; split; auto.
  - intros F.
    destruct (initWebGL_failure R A o s F) as (Hs & Hl & Hp).
    repeat split; auto.
    unfold session in Hs. intros Hr. congruence.
Qed.

Lemma failed_initialization_keeps_session_witness :
  let r := initWebGL (3 # 5) (1 # 2) (sampleOptions Video) videoFirstRejected in
  fst r = false /\
  session (snd r) = (false, None, None, None, None) /\
  log (snd r) = [].
Proof.
  destruct (failed_initialization_keeps_session (3 # 5) (1 # 2)
              (sampleOptions Video) videoFirstRejected) as (H1 & H2).
  assert (F : fst (initWebGL (3 # 5) (1 # 2) (sampleOptions Video)
                     videoFirstRejected) = false).
  { apply H1. vm_compute. reflexivity. }
  destruct (H2 F) as (Hs & Hl & _).
  cbv zeta. split; [exact F | split; [rewrite Hs | rewrite Hl]];
    vm_compute; reflexivity.
Defined.

End SessionFacts.

(** ** Media type detection: letter case, query strings, fragments *)

Section MediaTypeEdges.
Import MediaUtils.

Lemma lower_char_idempotent (c : ascii) : lower_char (lower_char c) = lower_char c.
Proof. destruct c as [[] [] [] [] [] [] [] []]; reflexivity. Qed.

(** A character that is no letter is the lower case of itself only. *)
Lemma lower_char_question (c : ascii) :
  Ascii.eqb (lower_char c) "?" = Ascii.eqb c "?".
Proof. destruct c as [[] [] [] [] [] [] [] []]; reflexivity. Qed.

Lemma lower_char_dot (c : ascii) :
  Ascii.eqb (lower_char c) "." = Ascii.eqb c ".".
Proof. destruct c as [[] [] [] [] [] [] [] []]; reflexivity. Qed.

Lemma lower_char_hash (c : ascii) :
  Ascii.eqb (lower_char c) "#" = Ascii.eqb c "#".
Proof. destruct c as [[] [] [] [] [] [] [] []]; reflexivity. Qed.

Lemma toLowerCase_idempotent (s : string) :
  toLowerCase (toLowerCase s) = toLowerCase s.
Proof.
  induction s as [|c s IH]; simpl; [reflexivity|].
  now rewrite lower_char_idempotent, IH.
Qed.

Lemma toLowerCase_app (a b : string) :
  toLowerCase (a ++ b)%string = (toLowerCase a ++ toLowerCase b)%string.
Proof. induction a as [|c a IH]; simpl; [reflexivity | now rewrite IH]. Qed.

(** Splitting at a character that is no letter commutes with lowering. *)
Lemma split_toLowerCase (sep : ascii) (s : string) :
  (forall c, Ascii.eqb (lower_char c) sep = Ascii.eqb c sep) ->
  split sep (toLowerCase s) = map toLowerCase (split sep s).
Proof.
  intros Hsep. induction s as [|c s IH]; simpl; [reflexivity|].
  rewrite Hsep. destruct (Ascii.eqb c sep); simpl; [now rewrite IH|].
  rewrite IH. destruct (split sep s) as [|h t] eqn:E; [|reflexivity].
  now apply split_nonempty in E.
Qed.

Lemma hd_map_toLowerCase (l : list string) :
  hd EmptyString (map toLowerCase l) = toLowerCase (hd EmptyString l).
Proof. destruct l; reflexivity. Qed.

Lemma last_map_toLowerCase (l : list string) :
  last (map toLowerCase l) EmptyString = toLowerCase (last l EmptyString).
Proof.
  induction l as [|x l IH]; [reflexivity|].
  destruct l as [|y l]; [reflexivity|].
  change (last (map toLowerCase (x :: y :: l)) EmptyString)
    with (last (map toLowerCase (y :: l)) EmptyString).
  exact IH.
Qed.

Lemma extension_toLowerCase (src : string) :
  extension (toLowerCase src) = extension src.
Proof.
  unfold extension, urlParts.
  rewrite (split_toLowerCase "?" src lower_char_question), hd_map_toLowerCase.
  rewrite (split_toLowerCase "." _ lower_char_dot), last_map_toLowerCase.
  apply toLowerCase_idempotent.
Qed.

(** The detection does not depend on the letter case of the source. *)
Theorem detectMediaType_ignores_case (src : string) :
  detectMediaType (toLowerCase src) = detectMediaType src.
Proof.
  destruct src as [|c src]; [reflexivity|].
  change (toLowerCase (String c src))
    with (String (lower_char c) (toLowerCase src)).
  unfold detectMediaType.
  change (String (lower_char c) (toLowerCase src))
    with (toLowerCase (String c src)).
  now rewrite extension_toLowerCase.
Qed.

(** A query string does not change the detection. *)
Theorem detectMediaType_ignores_query (src query : string) :
  occurs "?" src = false ->
  detectMediaType (src ++ String "?" query)%string = detectMediaType src.
Proof.
  intros H.
  assert (E : extension (src ++ String "?" query)%string = extension src).
  { unfold extension, urlParts.
    rewrite split_hd_unique by eauto.
    now rewrite (split_absent "?" src H). }
  destruct src as [|c src].
  - simpl. reflexivity.
  - cbn [append] in *. unfold detectMediaType. now rewrite E.
Qed.

Lemma detectMediaType_ignores_query_witness :
  detectMediaType "poster.JPG?width=640" = detectMediaType "poster.JPG".
Proof.
  apply (detectMediaType_ignores_query "poster.JPG" "width=640"). reflexivity.
Defined.

Lemma occurs_toLowerCase_hash (s : string) :
  occurs "#" (toLowerCase s) = occurs "#" s.
Proof.
  induction s as [|c s IH]; simpl; [reflexivity|].
  now rewrite lower_char_hash, IH.
Qed.

Lemma imageExtensions_no_hash (x : string) :
  In x imageExtensions -> occurs "#" x = false.
Proof.
  intros [<- | [<- | [<- | [<- | [<- | [<- | []]]]]]]; reflexivity.
Qed.

(** A fragment is not removed: a source with a ["#"] after its last dot
    and before any query string is a video, whatever precedes the
    ["#"]. *)
Theorem detectMediaType_keeps_fragment (base fragment query : string) :
  occurs "?" base = false ->
  occurs "." fragment = false -> occurs "?" fragment = false ->
  query = EmptyString \/ (exists q, query = String "?" q) ->
  detectMediaType (base ++ String "#" fragment ++ query)%string = Video.
Proof.
  intros Hb Hf1 Hf2 Hq.
  destruct (split_last_spec "." base) as (stem & Hbase & He & Hstem).
  set (e := last (split "." base) EmptyString) in *.
  assert (Hsrc : (base ++ String "#" fragment ++ query)%string
                 = (stem ++ (e ++ String "#" fragment) ++ query)%string).
  { rewrite Hbase at 1. now rewrite !append_assoc'. }
  assert (Hext : has_extension (base ++ String "#" fragment ++ query)%string
                               (e ++ String "#" fragment)%string).
  { exists stem, query. rewrite Hbase, occurs_app in Hb.
    apply orb_false_iff in Hb. destruct Hb as [Hb1 Hb2].
    repeat split; auto.
    - rewrite occurs_app, He. simpl. exact Hf1.
    - rewrite occurs_app, Hb2. simpl. exact Hf2. }
  destruct (detectMediaType _) eqn:D; [reflexivity|].
  apply detectMediaType_includes in D.
  rewrite (has_extension_extension _ _ Hext) in D.
  apply includes_In, imageExtensions_no_hash in D.
  rewrite occurs_toLowerCase_hash, occurs_app in D. simpl in D.
  rewrite orb_true_r in D. discriminate.
Qed.

Lemma detectMediaType_keeps_fragment_witness :
  detectMediaType "gallery/photo.png#zoom" = Video.
Proof.
  apply (detectMediaType_keeps_fragment "gallery/photo.png" "zoom" "");
    auto.
Defined.

(** A source without a dot and without a query string is classified by
    its whole text. *)
Theorem detectMediaType_without_dot (src : string) :
  occurs "." src = false -> occurs "?" src = false ->
  (detectMediaType src = Image <-> In (toLowerCase src) imageExtensions).
Proof.
  intros Hd Hq.
  rewrite detectMediaType_includes, includes_In.
  unfold extension, urlParts.
  rewrite (split_absent "?" src Hq). simpl hd.
  rewrite (split_absent "." src Hd). simpl last. reflexivity.
Qed.

Lemma detectMediaType_without_dot_witness :
  detectMediaType "PNG" = Image /\ detectMediaType "media/png" = Video.
Proof.
  split.
  - apply (detectMediaType_without_dot "PNG"); [reflexivity | reflexivity |].
    simpl. auto.
  - destruct (detectMediaType "media/png") eqn:D; [reflexivity|].
    apply (detectMediaType_without_dot "media/png") in D;
      [|reflexivity|reflexivity].
    simpl in D. intuition discriminate.
Defined.

End MediaTypeEdges.

(** ** Initialisation: what it keeps, what it lays out *)

Section InitLayout.
Import MediaUtils Grid WebGL Hook Observe Controls.

Variable CHAR_WIDTH_RATIO : Q.
Variable CELL_ASPECT : Q.

Local Abbreviation initWebGL := (initWebGL CHAR_WIDTH_RATIO CELL_ASPECT).
Local Abbreviation finalCols := (finalCols CHAR_WIDTH_RATIO).
Local Abbreviation finalFontSize := (finalFontSize CHAR_WIDTH_RATIO).

Ltac normalize_context :=
  repeat (rewrite ?calls_call_all, ?calls_call, ?objects_call_all,
                  ?nextHandle_call_all;
          cbn [calls objects nextHandle with_objects call]).

(** The set-up of a session keeps a media texture it finds, regenerates
    no mipmap, and gives the shader the layout it was called with. *)
Lemma setupSession_layout (o : Options) (p : WebGLProgram) (mw mh fc : Z) (ffs : Q)
    (grid : GridDimensions) (s : Hook) :
  let s' := setupSession CHAR_WIDTH_RATIO o p mw mh fc ffs grid s in
  let W := inject_Z (cols grid) * (ffs * CHAR_WIDTH_RATIO) in
  let H := inject_Z (rows grid) * ffs in
  (forall v, videoTextureRef (gpu s) = Some v -> videoTextureRef (gpu s') = Some v) /\
  (exists L, log s' = log s ++ L /\ regeneratesMipmaps L = false /\
             uniform2Value "u_resolution" L = Some (W, H) /\
             viewportValue L = Some (W, H) /\
             uniform2Value "u_charSize" L = Some (ffs * CHAR_WIDTH_RATIO, ffs) /\
             uniform2Value "u_gridSize" L
             = Some (inject_Z fc, inject_Z (rows grid))) /\
  react s' = {| dimensions := dimensions (react s); stats := stats (react s);
                isReady := true; isPlaying := isPlaying (react s) |} /\
  dom s' = dom s.
Proof.
  unfold setupSession, createVideoTexture, createAsciiAtlas, createFullscreenQuad, create.
  destruct (mediaType o); destruct (videoTextureRef (gpu s)) eqn:E; hook_simpl.
  all: rewrite ?E; hook_simpl.
  all: normalize_context.
  all: rewrite <- ?app_assoc.
  all: split; [intros v Hv; congruence || exact Hv|].
  all: split; [|split; reflexivity].
  all: eexists; split; [reflexivity|].
  all: split; [reflexivity|].
  all: repeat split; reflexivity.
Qed.

Ltac init_split o s :=
  unfold Hook.initWebGL;
  destruct (canvasRef (dom s)) as [canvas|] eqn:Ecanvas;
    [destruct (containerRef (dom s)) as [container|] eqn:Econtainer;
     [destruct (mediaElementPresent o s) eqn:Epresent;
      [destruct (mediaLoaded o s) eqn:Eloaded;
       [cbn [negb]; destruct (webgl2 canvas) eqn:Ewebgl;
        [unfold compileShader, compiles, createProgram, create; hook_simpl;
         destruct (vertexCompiles (gl (browser s))) eqn:Evertex; hook_simpl;
         destruct (fragmentCompiles (gl (browser s))) eqn:Efragment; hook_simpl;
         try (destruct (programLinks (gl (browser s))) eqn:Elink; hook_simpl)
        | ]
       | ]
      | ]
     | ]
    | ];
  hook_simpl.

Ltac with_layout :=
  match goal with
  | |- context [setupSession ?R ?o ?p ?a ?b ?c ?d ?e ?s0] =>
      let SL := fresh "SL" in
      pose proof (setupSession_layout o p a b c d e s0) as SL; cbv zeta in SL;
      set (S1 := setupSession R o p a b c d e s0) in *;
      destruct SL as (SLtex & (L & SLlog & SLmip & SLres & SLview & SLchar & SLgrid)
                      & SLreact & SLdom);
      hook_simpl
  end.

Lemma regeneratesMipmaps_app (a b : list GLCall) :
  regeneratesMipmaps (a ++ b) = regeneratesMipmaps a || regeneratesMipmaps b.
Proof. unfold regeneratesMipmaps. apply existsb_app. Qed.

Lemma regeneratesMipmaps_frameCalls (o : Options) (p : WebGLProgram) (mip : bool)
    (s : Hook) :
  regeneratesMipmaps (frameCalls o p mip s) = mip.
Proof.
  unfold frameCalls, callSetters. rewrite !regeneratesMipmaps_app.
  assert (E : regeneratesMipmaps
                (map (fun f => CallSetter f p) (map_values (uniformSettersRef s)))
              = false).
  { induction (map_values (uniformSettersRef s)) as [|f l IH]; [reflexivity | exact IH]. }
  rewrite E. destruct mip; reflexivity.
Qed.

(** No run of [initWebGL] replaces a media texture it finds or
    regenerates mipmaps; it only adds to the log. *)
Lemma initWebGL_keeps (o : Options) (s : Hook) :
  let s' := snd (initWebGL o s) in
  (forall v, videoTextureRef (gpu s) = Some v -> videoTextureRef (gpu s') = Some v) /\
  (exists N, log s' = log s ++ N /\ regeneratesMipmaps N = false) /\
  (isReady (react s) = true -> isReady (react s') = true).
Proof.
  init_split o s;
    try (split; [auto|]; split; [|auto]; exists []; rewrite app_nil_r;
         split; reflexivity).
  with_layout.
  destruct (mediaType o) eqn:Em.
  - split; [intros v Hv; apply SLtex; exact Hv|].
    split; [exists L; split; [exact SLlog | exact SLmip]|].
    intros _. now rewrite SLreact.
  - destruct (willRenderFrame S1) eqn:W.
    + destruct (renderFrame_active o S1 W)
        as (p' & _ & Rlog & _ & _ & Rr & _ & _ & _ & _ & _ & _ & _ & _ & _ & Rv & _).
      hook_simpl. rewrite Rv, Rr, SLreact.
      split; [intros v Hv; apply SLtex; exact Hv|].
      split; [|reflexivity].
      exists (L ++ frameCalls o p' (needsMipmapUpdateRef (gpu S1)) S1).
      split; [unfold log in Rlog; rewrite Rlog, SLlog; now rewrite app_assoc|].
      rewrite regeneratesMipmaps_app, SLmip, regeneratesMipmaps_frameCalls.
      subst S1. unfold setupSession. rewrite Em. reflexivity.
    + rewrite (renderFrame_idle o S1 W).
      split; [intros v Hv; apply SLtex; exact Hv|].
      split; [exists L; split; [exact SLlog | exact SLmip]|].
      intros _. now rewrite SLreact.
Qed.








End InitLayout.



(** ** What every run keeps *)

Section RunFacts.
Import MediaUtils Grid WebGL Hook Observe Controls.

Variable CHAR_WIDTH_RATIO : Q.
Variable CELL_ASPECT : Q.

Local Abbreviation step := (step CHAR_WIDTH_RATIO CELL_ASPECT).
Local Abbreviation run := (run CHAR_WIDTH_RATIO CELL_ASPECT).
Local Abbreviation initWebGL := (initWebGL CHAR_WIDTH_RATIO CELL_ASPECT).
Local Abbreviation mount := (mount CHAR_WIDTH_RATIO CELL_ASPECT).

Lemma keeps_refl (s : Hook) : keeps s s.
Proof. unfold keeps. auto. Qed.

Lemma keeps_trans (a b c : Hook) : keeps a b -> keeps b c -> keeps a c.
Proof.
  unfold keeps. intros (R1 & I1 & V1) (R2 & I2 & V2).
  split; [congruence|]. split; auto.
Qed.

Lemma initWebGL_keeps_all (o : Options) (s : Hook) : keeps s (snd (initWebGL o s)).
Proof.
  destruct (initWebGL_keeps CHAR_WIDTH_RATIO CELL_ASPECT o s) as (Hv & _ & Hr).
  destruct (initWebGL_frame CHAR_WIDTH_RATIO CELL_ASPECT o s) as (_ & Hu & _).
  unfold keeps, registry. auto.
Qed.

Lemma render_keeps (o : Options) (t : FrameClock) (s : Hook) : keeps s (render o t s).
Proof.
  destruct (willRender o s) eqn:W.
  - destruct (render_active o t s W)
      as (p & _ & _ & _ & _ & _ & _ & Hreg & _ & _ & _ & _ & Hv & _ & Hr).
    unfold keeps. rewrite Hreg, Hr, Hv. auto.
  - rewrite (render_idle o t s W). apply keeps_refl.
Qed.

Lemma animationFrame_keeps (o : Options) (t : FrameClock) (s : Hook) :
  keeps s (animationFrame o t s).
Proof.
  unfold animationFrame.
  apply keeps_trans with (clearPending s); [unfold keeps; hook_simpl; auto|].
  generalize (clearPending s).
  induction (pendingFrames (browser s)) as [|id ids IH]; intros s0; simpl.
  - apply keeps_refl.
  - eapply keeps_trans; [apply render_keeps | apply IH].
Qed.

Lemma cleanupWebGL_refs (s : Hook) :
  gpu (cleanupWebGL s) = gpu s /\ react (cleanupWebGL s) = react s.
Proof.
  unfold cleanupWebGL.
  destruct (glRef (gpu s)); [|hook_simpl; auto].
  destruct (videoTextureRef (gpu s)); hook_simpl;
    destruct (atlasTextureRef (gpu s)); hook_simpl;
    destruct (programRef (gpu s)); hook_simpl; auto.
Qed.

Lemma reinitialize_keeps (o : Options) (s : Hook) :
  keeps s (reinitialize CHAR_WIDTH_RATIO CELL_ASPECT o s).
Proof.
  destruct (reinitialize_cases CHAR_WIDTH_RATIO CELL_ASPECT o s) as [-> | ->];
    [apply keeps_refl | apply initWebGL_keeps_all].
Qed.

Lemma handleImageLoad_keeps (o : Options) (s : Hook) :
  keeps s (handleImageLoad CHAR_WIDTH_RATIO CELL_ASPECT o s).
Proof.
  unfold handleImageLoad.
  pose proof (initWebGL_keeps_all o s) as K.
  destruct (0 <? map_size _)%nat; [|exact K].
  eapply keeps_trans; [exact K|]. unfold keeps. hook_simpl. auto.
Qed.

(** Every event but a registration keeps the registry; every event keeps
    a set ready flag and a registered media texture. *)
Lemma step_keeps (o : Options) (e : Event) (s : Hook) :
  (isReady (react s) = true -> isReady (react (step o e s)) = true) /\
  (forall v, videoTextureRef (gpu s) = Some v ->
             videoTextureRef (gpu (step o e s)) = Some v) /\
  registry (step o e s)
  = match e with
    | Register id setter => map_set id setter (registry s)
    | Unregister id => map_delete id (registry s)
    | _ => registry s
    end.
Proof.
  assert (K : forall s', keeps s s' ->
              (isReady (react s) = true -> isReady (react s') = true) /\
              (forall v, videoTextureRef (gpu s) = Some v ->
                         videoTextureRef (gpu s') = Some v) /\
              registry s' = registry s).
  { unfold keeps. intros s' (H1 & H2 & H3). auto. }
  destruct e; cbn [Hook.step].
  - apply K. destruct (mediaType o); [|apply keeps_refl].
    destruct (videoRef (dom s)) as [v|]; [|apply keeps_refl].
    unfold handleLoadedMetadata.
    eapply keeps_trans; [|apply initWebGL_keeps_all].
    unfold keeps. hook_simpl. auto.
  - apply K. destruct (mediaType o); [|apply keeps_refl].
    destruct (videoRef (dom s)) as [v|]; [|apply keeps_refl].
    unfold keeps, handlePlay. hook_simpl. auto.
  - apply K. destruct (mediaType o); [|apply keeps_refl].
    destruct (videoRef (dom s)) as [v|]; [|apply keeps_refl].
    unfold keeps, handlePause. hook_simpl. auto.
  - apply K. destruct (mediaType o); [|apply keeps_refl].
    destruct (videoRef (dom s)) as [v|]; [|apply keeps_refl].
    unfold keeps, handleEnded. hook_simpl. auto.
  - apply K. destruct (mediaType o); [apply keeps_refl|].
    destruct (imageRef (dom s)) as [i|]; [|apply keeps_refl].
    eapply keeps_trans; [|apply handleImageLoad_keeps].
    unfold keeps. hook_simpl. auto.
  - apply K. destruct (containerRef (dom s)); [|apply keeps_refl].
    eapply keeps_trans; [|apply reinitialize_keeps].
    unfold keeps. hook_simpl. auto.
  - apply K. apply animationFrame_keeps.
  - unfold registerUniformSetter. hook_simpl. auto.
  - unfold unregisterUniformSetter. hook_simpl. auto.
  - apply K. unfold unmount.
    destruct (cleanupWebGL_refs (cancelAnimationFrame s)) as (Hg & Hr).
    destruct (cleanupWebGL_frame (cancelAnimationFrame s)) as (_ & _ & _ & Hreg & _).
    unfold keeps. rewrite Hg, Hr, Hreg. hook_simpl. auto.
Qed.

Lemma map_get_set_other (m : list (string * UniformSetter)) (k id : string)
    (v : UniformSetter) :
  String.eqb k id = false -> map_get id (map_set k v m) = map_get id m.
Proof.
  intros Hne. induction m as [|[k' v'] m IH]; simpl.
  - now rewrite Hne.
  - destruct (String.eqb k' k) eqn:E; simpl.
    + apply String.eqb_eq in E. subst k'. now rewrite Hne.
    + rewrite IH. reflexivity.
Qed.

Lemma map_get_delete_other (m : list (string * UniformSetter)) (k id : string) :
  String.eqb k id = false -> map_get id (map_delete k m) = map_get id m.
Proof.
  intros Hne. unfold map_delete. induction m as [|[k' v'] m IH]; simpl; [reflexivity|].
  destruct (String.eqb k' k) eqn:E; simpl.
  - apply String.eqb_eq in E. subst k'. now rewrite Hne.
  - now rewrite IH.
Qed.

(** After any events, an id holds the callback of its last registration,
    unless an unregistration followed; no other event touches the
    registry. *)
Theorem registry_holds_last_registration (o : Options) (es : list Event) (s : Hook)
    (id : string) :
  map_get id (registry (run o es s))
  = lastRegistration id es (map_get id (registry s)).
Proof.
  revert s. induction es as [|e es IH]; intros s; simpl; [reflexivity|].
  rewrite IH. destruct (step_keeps o e s) as (_ & _ & Hreg). rewrite Hreg.
  destruct e; try reflexivity.
  - destruct (String.eqb id0 id) eqn:E.
    + apply String.eqb_eq in E. subst id0. now rewrite map_get_set_same.
    + now rewrite (map_get_set_other _ _ _ _ E).
  - destruct (String.eqb id0 id) eqn:E.
    + apply String.eqb_eq in E. subst id0. now rewrite map_get_delete_same.
    + now rewrite (map_get_delete_other _ _ _ E).
Qed.

Lemma step_registry_NoDup (o : Options) (e : Event) (s : Hook) :
  NoDup (map fst (registry s)) -> NoDup (map fst (registry (step o e s))).
Proof.
  intros H. destruct (step_keeps o e s) as (_ & _ & Hreg). rewrite Hreg.
  destruct e; auto using map_set_NoDup, map_delete_NoDup.
Qed.

Lemma mount_registry (o : Options) (d : Dom) (g : Context) (t0 : Q) :
  registry (mount o d g t0) = [].
Proof.
  unfold Hook.mount, mountEffects.
  match goal with |- context [reinitialize _ _ o ?x] =>
    destruct (reinitialize_keeps o x) as (-> & _);
    assert (K : keeps (initialHook d g t0) x)
  end.
  - destruct (mediaType o).
    + destruct (videoRef (dom (initialHook d g t0))) as [v|]; [|apply keeps_refl].
      destruct (1 <=? readyState v)%Z; [|apply keeps_refl].
      unfold handleLoadedMetadata. apply initWebGL_keeps_all.
    + destruct (imageRef (dom (initialHook d g t0))) as [i|]; [|apply keeps_refl].
      destruct (complete i && negb (naturalWidth i =? 0)%Z); [|apply keeps_refl].
      apply handleImageLoad_keeps.
  - destruct K as (-> & _). reflexivity.
Qed.

(** In every state a mounted hook reaches, the ids of the registry are
    distinct. *)
Theorem registry_ids_stay_distinct (o : Options) (d : Dom) (g : Context) (t0 : Q)
    (es : list Event) :
  NoDup (map fst (registry (run o es (mount o d g t0)))).
Proof.
  assert (H : NoDup (map fst (registry (mount o d g t0)))).
  { rewrite mount_registry. constructor. }
  revert H. generalize (mount o d g t0).
  induction es as [|e es IH]; intros s H; simpl; [exact H|].
  apply IH. now apply step_registry_NoDup.
Qed.

(** No event clears the ready flag: once a session is ready the hook
    reports ready for good, through failed initialisations and the
    unmount alike. *)
Theorem ready_flag_is_never_cleared (o : Options) (es : list Event) (s : Hook) :
  isReady (react s) = true -> isReady (react (run o es s)) = true.
Proof.
  revert s. induction es as [|e es IH]; intros s H; simpl; [exact H|].
  apply IH. now apply (step_keeps o e s).
Qed.

(** The media texture is created once: a handle that is registered stays
    registered through every event. *)
Theorem media_texture_is_created_once (o : Options) (es : list Event) (s : Hook)
    (v : WebGLTexture) :
  videoTextureRef (gpu s) = Some v -> videoTextureRef (gpu (run o es s)) = Some v.
Proof.
  revert s. induction es as [|e es IH]; intros s H; simpl; [exact H|].
  apply IH. now apply (step_keeps o e s).
Qed.

End RunFacts.

Lemma ready_flag_is_never_cleared_witness :
  Hook.isReady
    (Hook.react
       (Hook.run (3 # 5) (1 # 2) (Observe.sampleOptions MediaUtils.Video)
          [Hook.Resize 640; Hook.Unmount] Observe.videoRejected)) = true.
Proof.
  apply (ready_flag_is_never_cleared (3 # 5) (1 # 2)). vm_compute. reflexivity.
Defined.

Lemma media_texture_is_created_once_witness :
  Hook.videoTextureRef
    (Hook.gpu
       (Hook.run (3 # 5) (1 # 2) (Observe.sampleOptions MediaUtils.Video)
          [Hook.Resize 640; Hook.Play; Hook.Resize 500] Observe.videoReady))
  = Some 5%nat.
Proof.
  apply (media_texture_is_created_once (3 # 5) (1 # 2)). vm_compute. reflexivity.
Defined.

(** ** Display refreshes *)

Section RefreshFacts.
Import MediaUtils Grid WebGL Hook Observe Controls.

Variable CHAR_WIDTH_RATIO : Q.
Variable CELL_ASPECT : Q.

Local Abbreviation run := (run CHAR_WIDTH_RATIO CELL_ASPECT).

Lemma fold_render_fixed (o : Options) (t : FrameClock) (ids : list nat) (s : Hook) :
  render o t s = s -> fold_left (fun s _ => render o t s) ids s = s.
Proof.
  intros H. induction ids as [|id ids IH]; simpl; [reflexivity|].
  now rewrite H.
Qed.

(** While the video is paused or has ended, a display refresh draws
    nothing and schedules nothing, whatever requests were pending. *)
Theorem stopped_video_is_not_drawn (o : Options) (t : FrameClock) (s : Hook) :
  videoStopped o s = true ->
  log (animationFrame o t s) = log s /\
  pending (animationFrame o t s) = [] /\
  bench (animationFrame o t s) = bench s.
Proof.
  intros H. unfold animationFrame.
  assert (W : willRender o (clearPending s) = false).
  { unfold willRender.
    change (videoStopped o (clearPending s)) with (videoStopped o s).
    rewrite H. simpl. now rewrite !andb_false_r. }
  rewrite (fold_render_fixed o t _ _ (render_idle o t _ W)).
  repeat split.
Qed.

Lemma stopped_video_is_not_drawn_witness :
  pending (requestAnimationFrame videoReady) = [1%nat] /\
  log (animationFrame (sampleOptions Video) (sampleClock 16)
         (requestAnimationFrame videoReady))
  = log (requestAnimationFrame videoReady) /\
  pending (animationFrame (sampleOptions Video) (sampleClock 16)
             (requestAnimationFrame videoReady)) = [].
Proof.
  split; [vm_compute; reflexivity|].
  destruct (stopped_video_is_not_drawn (sampleOptions Video) (sampleClock 16)
              (requestAnimationFrame videoReady)) as (H1 & H2 & _).
  - vm_compute. reflexivity.
  - split; [exact H1 | exact H2].
Defined.

(** A tick that draws leaves the guards of the next tick open. *)
Lemma render_willRender (o : Options) (t : FrameClock) (s : Hook) :
  willRender o s = true -> willRender o (render o t s) = true.
Proof.
  intros W.
  destruct (render_active o t s W)
    as (p & _ & _ & _ & _ & _ & Hdom & _ & _ & Hgl & Hpr & Hloc & _).
  destruct (willRender_program o s W) as (p0 & l0 & _ & _ & G3 & G4 & G5).
  unfold willRender, mediaElementPresent, videoStopped in *.
  rewrite Hgl, Hpr, Hloc, G3, Hdom, G4, G5. reflexivity.
Qed.

Lemma fold_render_active (o : Options) (t : FrameClock) (ids : list nat) (s : Hook) :
  willRender o s = true ->
  let r := fold_left (fun s _ => render o t s) ids s in
  willRender o r = true /\
  draws r = (draws s + List.length ids)%nat /\
  List.length (pending r) = (List.length (pending s) + List.length ids)%nat.
Proof.
  revert s. induction ids as [|id ids IH]; intros s W; simpl.
  - repeat split; auto.
  - destruct (render_active o t s W) as (p & _ & Hlog & Hpend & _).
    destruct (IH (render o t s) (render_willRender o t s W)) as (W' & Hd & Hp).
    split; [exact W'|]. split.
    + rewrite Hd, (draws_app _ _ _ Hlog), frameCalls_draws. lia.
    + rewrite Hp, Hpend, length_app. simpl. lia.
Qed.

(** Every pending tick that draws schedules its successor: a display
    refresh draws one frame per pending request and leaves as many
    requests pending as it found. *)
Theorem every_pending_tick_reschedules (o : Options) (t : FrameClock) (s : Hook) :
  willRender o s = true ->
  draws (animationFrame o t s) = (draws s + List.length (pending s))%nat /\
  List.length (pending (animationFrame o t s)) = List.length (pending s).
Proof.
  intros W. unfold animationFrame.
  destruct (fold_render_active o t (pendingFrames (browser s)) (clearPending s) W)
    as (_ & Hd & Hp).
  split; [exact Hd | exact Hp].
Qed.

Lemma every_pending_tick_reschedules_witness :
  let twice := requestAnimationFrame videoPlaying in
  List.length (pending twice) = 2%nat /\
  draws (animationFrame (sampleOptions Video) (sampleClock 32) twice)
  = (draws twice + 2)%nat /\
  List.length (pending (animationFrame (sampleOptions Video) (sampleClock 32) twice))
  = 2%nat.
Proof.
  cbv zeta. split; [vm_compute; reflexivity|].
  destruct (every_pending_tick_reschedules (sampleOptions Video) (sampleClock 32)
              (requestAnimationFrame videoPlaying)) as (H1 & H2).
  - vm_compute. reflexivity.
  - split; [exact H1 | exact H2].
Defined.

(** The mipmap flag after a tick that draws. *)
Lemma render_mipmap_flag (o : Options) (t : FrameClock) (s : Hook) :
  willRender o s = true ->
  needsMipmapUpdateRef (gpu (render o t s))
  = if MediaType_eqb (mediaType o) Video then false else needsMipmapUpdateRef (gpu s).
Proof.
  intros W. destruct (willRender_program _ _ W) as (p & l & H1 & H2 & H3 & H4 & H5).
  unfold render. rewrite H1, H2, H3, H4, H5. cbn [negb].
  match goal with |- context [trackPerformance t ?x] =>
    destruct (trackPerformance_frame t x) as (_ & Tg & _)
  end.
  cbn [requestAnimationFrame with_animationRef with_browser gpu].
  rewrite Tg. hook_simpl.
  destruct (MediaType_eqb (mediaType o) Video);
    destruct (needsMipmapUpdateRef (gpu s)) eqn:E; hook_simpl;
    rewrite ?E; reflexivity.
Qed.

(** A tick that draws regenerates the mipmaps exactly when the source is
    a video and the flag raised by an initialisation is still set, and a
    video tick clears the flag: one regeneration per initialisation. *)
Theorem mipmaps_regenerated_once_per_initialisation (o : Options)
    (t t' : FrameClock) (s : Hook) :
  willRender o s = true ->
  regeneratesMipmaps (newCalls s (render o t s))
  = MediaType_eqb (mediaType o) Video && needsMipmapUpdateRef (gpu s) /\
  (mediaType o = Video ->
   regeneratesMipmaps (newCalls (render o t s) (render o t' (render o t s))) = false).
Proof.
  intros W.
  destruct (render_active o t s W) as (p & _ & Hlog & _).
  split.
  - rewrite (newCalls_app _ _ _ Hlog). apply regeneratesMipmaps_frameCalls.
  - intros Hm.
    pose proof (render_willRender o t s W) as W1.
    destruct (render_active o t' _ W1) as (p1 & _ & Hlog1 & _).
    rewrite (newCalls_app _ _ _ Hlog1), regeneratesMipmaps_frameCalls.
    rewrite (render_mipmap_flag o t s W), Hm. reflexivity.
Qed.

Lemma mipmaps_regenerated_once_per_initialisation_witness :
  let s := handlePlay videoReady in
  let s1 := render (sampleOptions Video) (sampleClock 16)
              (set_video (Some {| videoWidth := 640; videoHeight := 480;
                                  paused := false; ended := false;
                                  readyState := 1 |}) s) in
  regeneratesMipmaps (newCalls s s1) = true /\
  regeneratesMipmaps
    (newCalls s1 (render (sampleOptions Video) (sampleClock 32) s1)) = false.
Proof.
  cbv zeta.
  destruct (mipmaps_regenerated_once_per_initialisation (sampleOptions Video)
              (sampleClock 16) (sampleClock 32)
              (set_video (Some {| videoWidth := 640; videoHeight := 480;
                                  paused := false; ended := false;
                                  readyState := 1 |}) (handlePlay videoReady)))
    as (H1 & H2).
  - vm_compute. reflexivity.
  - split; [vm_compute; reflexivity | apply H2; reflexivity].
Defined.

(** *** The window of frame timings *)

Lemma pushFrameTime_lastn (x : Q) (h : list Q) :
  (List.length h <= 60)%nat -> pushFrameTime x h = lastn 60 (h ++ [x]).
Proof.
  intros H. unfold pushFrameTime, lastn.
  rewrite length_app. simpl.
  destruct (60 <? List.length h + 1)%nat eqn:E.
  - apply Nat.ltb_lt in E.
    replace (List.length h + 1 - 60)%nat with 1%nat by lia.
    destruct (h ++ [x]); reflexivity.
  - apply Nat.ltb_ge in E.
    replace (List.length h + 1 - 60)%nat with 0%nat by lia. reflexivity.
Qed.

Lemma lastn_app_lastn {A : Type} (n : nat) (l m : list A) :
  lastn n (lastn n l ++ m) = lastn n (l ++ m).
Proof.
  unfold lastn.
  rewrite !skipn_app, !length_app, skipn_skipn, !length_skipn.
  f_equal; f_equal; lia.
Qed.

Lemma lastn_length {A : Type} (n : nat) (l : list A) :
  (List.length (lastn n l) <= n)%nat.
Proof. unfold lastn. rewrite length_skipn. lia. Qed.

(** One refresh of a loop that owns its request. *)
Lemma refresh_active (o : Options) (t : FrameClock) (s : Hook) :
  willRender o s = true -> pending s = [animationRef s] ->
  let s' := animationFrame o t s in
  willRender o s' = true /\ pending s' = [animationRef s'] /\
  frameTimesRef (bench s')
  = pushFrameTime (duration t) (frameTimesRef (bench s)).
Proof.
  intros W Hp. unfold animationFrame.
  unfold pending in Hp. rewrite Hp. cbn [fold_left].
  assert (W' : willRender o (clearPending s) = true) by exact W.
  destruct (render_active o t (clearPending s) W')
    as (p & _ & _ & Hpend & Hanim & _).
  cbv zeta. split; [now apply render_willRender|].
  split; [rewrite Hpend, Hanim; reflexivity|].
  destruct (render_stats o t (clearPending s) W') as (-> & _).
  destruct (trackPerformance_stats t (clearPending s)) as (-> & _).
  reflexivity.
Qed.

(** The history is a sliding window: after any number of refreshes of a
    running loop it holds the timings of the most recent 60 frames, in
    the order they were drawn. *)
Theorem history_is_the_last_sixty_timings (o : Options) (ts : list FrameClock)
    (s : Hook) :
  willRender o s = true -> pending s = [animationRef s] ->
  (List.length (frameTimesRef (bench s)) <= 60)%nat ->
  frameTimesRef (bench (run o (refreshes ts) s))
  = lastn 60 (frameTimesRef (bench s) ++ map duration ts).
Proof.
  revert s. induction ts as [|t ts IH]; intros s W Hp Hlen.
  - simpl. rewrite app_nil_r. unfold lastn.
    replace (List.length (frameTimesRef (bench s)) - 60)%nat with 0%nat by lia.
    reflexivity.
  - destruct (refresh_active o t s W Hp) as (W1 & Hp1 & Hf).
    change (run o (refreshes (t :: ts)) s)
      with (run o (refreshes ts) (animationFrame o t s)).
    rewrite (IH _ W1 Hp1).
    + rewrite Hf, (pushFrameTime_lastn _ _ Hlen), lastn_app_lastn.
      simpl map. now rewrite <- app_assoc.
    + rewrite Hf. now apply pushFrameTime_length.
Qed.

End RefreshFacts.

Lemma history_is_the_last_sixty_timings_witness :
  Hook.frameTimesRef
    (Hook.bench
       (Hook.run (3 # 5) (1 # 2) (Observe.sampleOptions MediaUtils.Video)
          (Observe.refreshes [Observe.sampleClock 32; Observe.sampleClock 48])
          Observe.videoPlaying))
  = Controls.lastn 60
      (Hook.frameTimesRef (Hook.bench Observe.videoPlaying)
       ++ map Controls.duration [Observe.sampleClock 32; Observe.sampleClock 48]).
Proof.
  apply (history_is_the_last_sixty_timings (3 # 5) (1 # 2)
           (Observe.sampleOptions MediaUtils.Video)
           [Observe.sampleClock 32; Observe.sampleClock 48] Observe.videoPlaying).
  - vm_compute. reflexivity.
  - vm_compute. reflexivity.
  - vm_compute. lia.
Defined.

(** ** Image sources and the unmount *)

Section ImageAndUnmountFacts.
Import MediaUtils Grid WebGL Hook Observe Controls.

Variable CHAR_WIDTH_RATIO : Q.
Variable CELL_ASPECT : Q.

Local Abbreviation step := (step CHAR_WIDTH_RATIO CELL_ASPECT).
Local Abbreviation run := (run CHAR_WIDTH_RATIO CELL_ASPECT).
Local Abbreviation initWebGL := (initWebGL CHAR_WIDTH_RATIO CELL_ASPECT).
Local Abbreviation mount := (mount CHAR_WIDTH_RATIO CELL_ASPECT).

Lemma extends_quiet (s s' : Hook) (N : list GLCall) :
  log s' = log s ++ N -> regeneratesMipmaps N = false ->
  regeneratesMipmaps (log s) = false -> regeneratesMipmaps (log s') = false.
Proof. intros -> HN Hs. now rewrite regeneratesMipmaps_app, Hs, HN. Qed.

Lemma initWebGL_quiet (o : Options) (s : Hook) :
  regeneratesMipmaps (log s) = false ->
  regeneratesMipmaps (log (snd (initWebGL o s))) = false.
Proof.
  destruct (initWebGL_keeps CHAR_WIDTH_RATIO CELL_ASPECT o s) as (_ & (N & HN & Hq) & _).
  now apply extends_quiet with N.
Qed.

Lemma render_image_quiet (o : Options) (t : FrameClock) (s : Hook) :
  mediaType o = Image ->
  regeneratesMipmaps (log s) = false ->
  regeneratesMipmaps (log (render o t s)) = false.
Proof.
  intros Hm Hs. destruct (willRender o s) eqn:W.
  - destruct (render_active o t s W) as (p & _ & Hlog & _).
    apply (extends_quiet _ _ _ Hlog); [|exact Hs].
    rewrite regeneratesMipmaps_frameCalls, Hm. reflexivity.
  - now rewrite (render_idle o t s W).
Qed.

Lemma cleanupWebGL_quiet (s : Hook) :
  regeneratesMipmaps (log s) = false ->
  regeneratesMipmaps (log (cleanupWebGL s)) = false.
Proof.
  unfold cleanupWebGL, deleteTexture, deleteProgram, remove, log.
  destruct (glRef (gpu s)); [|hook_simpl; auto].
  destruct (videoTextureRef (gpu s)); hook_simpl;
    destruct (atlasTextureRef (gpu s)); hook_simpl;
    destruct (programRef (gpu s)); hook_simpl;
    intros H; rewrite ?regeneratesMipmaps_app, H; reflexivity.
Qed.

Lemma step_image_quiet (o : Options) (e : Event) (s : Hook) :
  mediaType o = Image ->
  regeneratesMipmaps (log s) = false ->
  regeneratesMipmaps (log (step o e s)) = false.
Proof.
  intros Hm Hs. destruct e; cbn [Hook.step]; rewrite ?Hm; try exact Hs.
  - destruct (imageRef (dom s)) as [i|]; [|exact Hs].
    unfold handleImageLoad.
    match goal with |- context [Hook.initWebGL _ _ o ?x] =>
      pose proof (initWebGL_quiet o x Hs) as Q end.
    destruct (0 <? map_size _)%nat; exact Q.
  - destruct (containerRef (dom s)); [|exact Hs].
    match goal with |- context [reinitialize _ _ o ?x] =>
      destruct (reinitialize_cases CHAR_WIDTH_RATIO CELL_ASPECT o x) as [-> | ->];
      [exact Hs | exact (initWebGL_quiet o x Hs)] end.
  - unfold animationFrame.
    assert (H0 : regeneratesMipmaps (log (clearPending s)) = false) by exact Hs.
    revert H0. generalize (clearPending s).
    induction (pendingFrames (browser s)) as [|id ids IH]; intros s0 H0; simpl.
    + exact H0.
    + apply IH. now apply render_image_quiet.
  - unfold unmount. now apply cleanupWebGL_quiet.
Qed.

(** With an image source the mipmaps are never regenerated, whatever the
    events that follow the mount. *)
Theorem image_never_regenerates_mipmaps (o : Options) (d : Dom) (g : Context)
    (t0 : Q) (es : list Event) :
  mediaType o = Image ->
  regeneratesMipmaps (calls g) = false ->
  regeneratesMipmaps (log (run o es (mount o d g t0))) = false.
Proof.
  intros Hm Hg.
  assert (H : regeneratesMipmaps (log (mount o d g t0)) = false).
  { unfold Hook.mount, mountEffects. rewrite Hm.
    assert (H0 : regeneratesMipmaps (log (initialHook d g t0)) = false) by exact Hg.
    match goal with |- context [reinitialize _ _ o ?x] =>
      assert (Hx : regeneratesMipmaps (log x) = false);
      [|destruct (reinitialize_cases CHAR_WIDTH_RATIO CELL_ASPECT o x) as [-> | ->];
        [exact Hx | exact (initWebGL_quiet o x Hx)]]
    end.
    destruct (imageRef (dom (initialHook d g t0))) as [i|]; [|exact H0].
    destruct (complete i && negb (naturalWidth i =? 0)%Z); [|exact H0].
    unfold handleImageLoad.
    pose proof (initWebGL_quiet o _ H0) as Q.
    destruct (0 <? map_size _)%nat; exact Q. }
  revert H. generalize (mount o d g t0).
  induction es as [|e es IH]; intros s H; simpl; [exact H|].
  apply IH. now apply step_image_quiet.
Qed.

Lemma GLObject_eqb_eq (a b : GLObject) : GLObject_eqb a b = true <-> a = b.
Proof.
  destruct a, b; simpl; try (split; [discriminate | intros E; discriminate]);
    rewrite Nat.eqb_eq; split; congruence.
Qed.

Lemma remove_In (x a : GLObject) (l : list GLObject) :
  In x (filter (fun y => negb (GLObject_eqb y a)) l) <-> In x l /\ x <> a.
Proof.
  rewrite filter_In, negb_true_iff.
  split; intros [H1 H2]; split; auto.
  - intros E. apply GLObject_eqb_eq in E. congruence.
  - destruct (GLObject_eqb x a) eqn:E; [|reflexivity].
    apply GLObject_eqb_eq in E. congruence.
Qed.

(** The unmount deletes the objects the refs point to, when a context
    was obtained, and nothing else: every shader and buffer that was
    alive stays alive. *)
Theorem unmount_deletes_only_registered_objects (s : Hook) (x : GLObject) :
  (In x (liveObjects (unmount s)) <->
   In x (liveObjects s) /\
   (glRef (gpu s) = true -> ~ In x (registeredObjects s))) /\
  (forall h, x = ShaderObj h \/ x = BufferObj h ->
             In x (liveObjects s) -> In x (liveObjects (unmount s))).
Proof.
  assert (Main : In x (liveObjects (unmount s)) <->
                 In x (liveObjects s) /\
                 (glRef (gpu s) = true -> ~ In x (registeredObjects s))).
  { unfold unmount, cleanupWebGL, registeredObjects, deleteTexture, deleteProgram,
      liveObjects.
    hook_simpl.
    destruct (glRef (gpu s)); [|hook_simpl; intuition discriminate].
    destruct (videoTextureRef (gpu s)) as [v|]; hook_simpl;
      destruct (atlasTextureRef (gpu s)) as [a|]; hook_simpl;
      destruct (programRef (gpu s)) as [p|]; hook_simpl;
      unfold remove; cbn [objects call with_objects];
      rewrite ?remove_In; simpl; intuition congruence. }
  split; [exact Main|].
  intros h Hx Hin. apply Main. split; [exact Hin|].
  intros _. unfold registeredObjects.
  destruct (videoTextureRef (gpu s)), (atlasTextureRef (gpu s)), (programRef (gpu s));
    simpl; destruct Hx as [-> | ->]; intuition discriminate.
Qed.

End ImageAndUnmountFacts.

Lemma image_never_regenerates_mipmaps_witness :
  Controls.regeneratesMipmaps
    (Observe.log
       (Hook.run (3 # 5) (1 # 2) (Observe.sampleOptions MediaUtils.Image)
          [Hook.Register "mouse" 1%nat; Hook.ImageLoad 640 480;
           Hook.AnimationFrame (Observe.sampleClock 16); Hook.Resize 500]
          (Hook.mount (3 # 5) (1 # 2) (Observe.sampleOptions MediaUtils.Image)
             Observe.sampleDom Observe.sampleContext 0))) = false.
Proof.
  apply (image_never_regenerates_mipmaps (3 # 5) (1 # 2)); reflexivity.
Defined.

(** ** The control surface and the video effect *)

Section ControlFacts.
Import MediaUtils Grid WebGL Hook Observe Controls.

Variable CHAR_WIDTH_RATIO : Q.
Variable CELL_ASPECT : Q.

Local Abbreviation step := (step CHAR_WIDTH_RATIO CELL_ASPECT).
Local Abbreviation run := (run CHAR_WIDTH_RATIO CELL_ASPECT).
Local Abbreviation initWebGL := (initWebGL CHAR_WIDTH_RATIO CELL_ASPECT).
Local Abbreviation mount := (mount CHAR_WIDTH_RATIO CELL_ASPECT).
Local Abbreviation act := (act CHAR_WIDTH_RATIO CELL_ASPECT).
Local Abbreviation drive := (drive CHAR_WIDTH_RATIO CELL_ASPECT).
Local Abbreviation rerunVideoEffect := (rerunVideoEffect CHAR_WIDTH_RATIO CELL_ASPECT).

Lemma initWebGL_video (o : Options) (s : Hook) :
  videoRef (dom (snd (initWebGL o s))) = videoRef (dom s).
Proof. apply (initWebGL_frame CHAR_WIDTH_RATIO CELL_ASPECT o s). Qed.

Lemma animationFrame_dom (o : Options) (t : FrameClock) (s : Hook) :
  dom (animationFrame o t s) = dom s.
Proof.
  unfold animationFrame.
  change (dom s) with (dom (clearPending s)). generalize (clearPending s).
  induction (pendingFrames (browser s)) as [|id ids IH]; intros s0; simpl;
    [reflexivity|].
  rewrite IH. destruct (willRender o s0) eqn:W.
  - destruct (render_active o t s0 W) as (p & _ & _ & _ & _ & _ & Hd & _).
    exact Hd.
  - now rewrite (render_idle o t s0 W).
Qed.

Lemma pending_nil_idle (s : Hook) : pending s = [] -> idle_when_paused s.
Proof. intros H v _ _. exact H. Qed.

(** No event but [play] leaves a request pending on a paused video. *)
Lemma step_idle (o : Options) (e : Event) (s : Hook) :
  mediaType o = Video -> e <> Play ->
  single_loop s -> idle_when_paused s ->
  idle_when_paused (step o e s).
Proof.
  intros Hm He Hl Hi. destruct e; cbn [Hook.step]; rewrite ?Hm; try exact Hi.
  - destruct (videoRef (dom s)) as [v|] eqn:Ev; [|exact Hi].
    unfold handleLoadedMetadata, idle_when_paused.
    match goal with |- context [Hook.initWebGL _ _ o ?x] =>
      rewrite (initWebGL_video o x), (proj1 (initWebGL_pending _ _ o x)) end.
    hook_simpl. intros v' E Hp. inversion E; subst v'. simpl in Hp.
    apply (Hi v Ev Hp).
  - congruence.
  - destruct (videoRef (dom s)) as [v|] eqn:Ev; [|exact Hi].
    apply pending_nil_idle. unfold handlePause. apply cancel_single_loop. exact Hl.
  - destruct (videoRef (dom s)) as [v|] eqn:Ev; [|exact Hi].
    apply pending_nil_idle. unfold handleEnded. apply cancel_single_loop. exact Hl.
  - destruct (containerRef (dom s)); [|exact Hi].
    match goal with |- context [reinitialize _ _ o ?x] =>
      destruct (reinitialize_cases CHAR_WIDTH_RATIO CELL_ASPECT o x) as [-> | ->];
      [exact Hi|];
      unfold idle_when_paused;
      rewrite (initWebGL_video o x), (proj1 (initWebGL_pending _ _ o x)) end.
    exact Hi.
  - intros v Ev Hp. rewrite animationFrame_dom in Ev.
    apply (animationFrame_idle o t s). apply (Hi v Ev Hp).
  - apply pending_nil_idle. unfold unmount.
    destruct (cleanupWebGL_frame (cancelAnimationFrame s))
      as (_ & _ & _ & _ & _ & _ & Hpe).
    rewrite Hpe, (cancel_single_loop s Hl). reflexivity.
Qed.

Lemma videoPlay_invariant (o : Options) (s : Hook) :
  mediaType o = Video -> single_loop s -> idle_when_paused s ->
  single_loop (videoPlay CHAR_WIDTH_RATIO CELL_ASPECT o s) /\
  idle_when_paused (videoPlay CHAR_WIDTH_RATIO CELL_ASPECT o s).
Proof.
  intros Hm Hl Hi. unfold videoPlay.
  destruct (videoRef (dom s)) as [v|] eqn:Ev; [|auto].
  destruct (paused v) eqn:Hp; [|auto].
  split.
  - apply single_loop_step; [exact Hm | exact Hl |].
    intros _. exact (Hi v Ev Hp).
  - cbn [Hook.step]. rewrite Hm, Ev. unfold handlePlay, idle_when_paused.
    hook_simpl. intros v' E Hp'. inversion E; subst v'. discriminate.
Qed.

Lemma videoPause_invariant (o : Options) (s : Hook) :
  mediaType o = Video -> single_loop s -> idle_when_paused s ->
  single_loop (videoPause CHAR_WIDTH_RATIO CELL_ASPECT o s) /\
  idle_when_paused (videoPause CHAR_WIDTH_RATIO CELL_ASPECT o s).
Proof.
  intros Hm Hl Hi. unfold videoPause.
  destruct (videoRef (dom s)) as [v|] eqn:Ev; [|auto].
  destruct (paused v) eqn:Hp; [auto|].
  split.
  - apply single_loop_step; auto. discriminate.
  - apply step_idle; auto. discriminate.
Qed.

Lemma toggle_invariant (o : Options) (s : Hook) :
  mediaType o = Video -> single_loop s -> idle_when_paused s ->
  single_loop (toggle CHAR_WIDTH_RATIO CELL_ASPECT o s) /\
  idle_when_paused (toggle CHAR_WIDTH_RATIO CELL_ASPECT o s).
Proof.
  intros Hm Hl Hi. unfold toggle.
  destruct (videoRef (dom s)) as [v|] eqn:Ev; [|auto].
  destruct (paused v); [now apply videoPlay_invariant | now apply videoPause_invariant].
Qed.

Lemma rerunVideoEffect_pending (o : Options) (s : Hook) :
  mediaType o = Video -> videoRef (dom s) <> None -> single_loop s ->
  pending (rerunVideoEffect o s) = [] /\
  draws (rerunVideoEffect o s) = draws s.
Proof.
  intros Hm Hv Hl. unfold Controls.rerunVideoEffect, videoEffect, videoEffectCleanup.
  rewrite Hm. destruct (videoRef (dom s)) as [v|] eqn:Ev; [|congruence].
  pose proof (cancel_single_loop s Hl) as Hc.
  change (videoRef (dom (cancelAnimationFrame s))) with (videoRef (dom s)).
  rewrite Ev. destruct (1 <=? readyState v)%Z.
  - unfold handleLoadedMetadata.
    rewrite (proj1 (initWebGL_pending _ _ o _)),
            (initWebGL_video_draws _ _ o _ Hm).
    split; [exact Hc | reflexivity].
  - split; [exact Hc | reflexivity].
Qed.

Lemma act_invariant (o : Options) (a : Action) (s : Hook) :
  mediaType o = Video -> not_play a ->
  single_loop s -> idle_when_paused s ->
  single_loop (act o a s) /\ idle_when_paused (act o a s).
Proof.
  intros Hm Ha Hl Hi. destruct a; cbn [Controls.act].
  - assert (He : e <> Play) by (intros ->; now apply Ha).
    split; [apply single_loop_step; auto; congruence | now apply step_idle].
  - now apply videoPlay_invariant.
  - now apply videoPause_invariant.
  - now apply toggle_invariant.
  - unfold handleKeyDown. destruct (enableSpacebarToggle o); [|auto].
    destruct (String.eqb code "Space" && targetIsBody); [|auto].
    now apply toggle_invariant.
  - destruct (videoRef (dom s)) as [v|] eqn:Ev.
    + destruct (rerunVideoEffect_pending o s Hm) as (Hp & _);
        [congruence | exact Hl |].
      split; [now left | now apply pending_nil_idle].
    + unfold Controls.rerunVideoEffect. rewrite Hm, Ev. auto.
  - unfold playbackEffect. rewrite Hm.
    destruct (videoRef (dom s)); [|auto].
    destruct isPlayingProp; [|now apply videoPause_invariant].
    destruct (autoPlay && isReady (react s)); [|auto].
    destruct allowed; [now apply videoPlay_invariant | auto].
Qed.

Lemma mount_video_pending (o : Options) (d : Dom) (g : Context) (t0 : Q) :
  mediaType o = Video -> pending (mount o d g t0) = [].
Proof.
  intros Hm. unfold Hook.mount, mountEffects. rewrite Hm.
  match goal with |- context [reinitialize _ _ o ?x] =>
    assert (Hx : pending x = []);
    [|destruct (reinitialize_cases CHAR_WIDTH_RATIO CELL_ASPECT o x) as [-> | ->];
      [exact Hx | now rewrite (proj1 (initWebGL_pending _ _ o x))]]
  end.
  destruct (videoRef (dom (initialHook d g t0))) as [v|]; [|reflexivity].
  destruct (1 <=? readyState v)%Z; [|reflexivity].
  unfold handleLoadedMetadata. now rewrite (proj1 (initWebGL_pending _ _ o _)).
Qed.

(** Driven by the events of its environment and by [play], [pause],
    [toggle], the space bar, the playback effect of the component and
    re-runs of the video effect, a video hook
    never owns more than one pending tick, the one in [animationRef],
    and owns none while the video is paused. *)
Theorem controls_keep_a_single_loop (o : Options) (d : Dom) (g : Context) (t0 : Q)
    (acts : list Action) :
  mediaType o = Video ->
  Forall not_play acts ->
  single_loop (drive o acts (mount o d g t0)) /\
  idle_when_paused (drive o acts (mount o d g t0)).
Proof.
  intros Hm Hacts.
  assert (H0 : single_loop (mount o d g t0) /\ idle_when_paused (mount o d g t0)).
  { pose proof (mount_video_pending o d g t0 Hm) as Hp.
    split; [now left | now apply pending_nil_idle]. }
  revert H0. generalize (mount o d g t0).
  induction Hacts as [|a acts Ha Hacts IH]; intros s (Hl & Hi); simpl; [auto|].
  apply IH. now apply act_invariant.
Qed.


(** With the prop [isPlaying] false, the playback effect of the
    component pauses the video and leaves no tick pending; it draws
    nothing. *)
Theorem playback_prop_false_stops_the_loop (o : Options) (s : Hook)
    (autoPlay allowed : bool) :
  mediaType o = Video -> videoRef (dom s) <> None ->
  single_loop s -> idle_when_paused s ->
  let s' := playbackEffect CHAR_WIDTH_RATIO CELL_ASPECT o false autoPlay allowed s in
  pending s' = [] /\ log s' = log s /\
  exists v', videoRef (dom s') = Some v' /\ paused v' = true.
Proof.
  intros Hm Hv Hl Hi. unfold playbackEffect, videoPause. rewrite Hm.
  destruct (videoRef (dom s)) as [v|] eqn:Ev; [|congruence].
  cbv zeta. destruct (paused v) eqn:Hp.
  - split; [exact (Hi v Ev Hp)|]. split; [reflexivity|].
    exists v. auto.
  - cbn [Hook.step]. rewrite Hm, Ev. unfold handlePause. split.
    + apply cancel_single_loop. exact Hl.
    + hook_simpl. split; [reflexivity|]. eexists. split; reflexivity.
Qed.

(** When React re-runs the video effect (its dependency [render] is
    re-created by a change of [colored], [blend], [highlight],
    [brightness] or [onStats]), the pending tick is cancelled and none is
    scheduled: the video is not drawn again before its next [play]
    event. *)
Theorem video_effect_rerun_stops_the_loop (o : Options) (s : Hook)
    (es : list Event) :
  mediaType o = Video -> videoRef (dom s) <> None -> single_loop s ->
  ~ In Play es ->
  pending (rerunVideoEffect o s) = [] /\
  draws (run o es (rerunVideoEffect o s)) = draws s /\
  pending (run o es (rerunVideoEffect o s)) = [].
Proof.
  intros Hm Hv Hl Hes.
  destruct (rerunVideoEffect_pending o s Hm Hv Hl) as (Hp & Hd).
  destruct (quiet_run CHAR_WIDTH_RATIO CELL_ASPECT o es _ Hm Hes Hp) as (Hp' & Hd').
  split; [exact Hp|]. split; [congruence | exact Hp'].
Qed.

End ControlFacts.

Lemma controls_keep_a_single_loop_witness :
  Observe.single_loop
    (Controls.drive (3 # 5) (1 # 2) (Observe.sampleOptions MediaUtils.Video)
       [Controls.Env (Hook.LoadedMetadata 640 480); Controls.CallPlay;
        Controls.Env (Hook.AnimationFrame (Observe.sampleClock 16));
        Controls.CallPlay; Controls.CallToggle; Controls.CallToggle;
        Controls.PlaybackEffect true true true;
        Controls.RerunVideoEffect]
       (Hook.mount (3 # 5) (1 # 2) (Observe.sampleOptions MediaUtils.Video)
          Observe.sampleDom Observe.sampleContext 0)).
Proof.
  apply (controls_keep_a_single_loop (3 # 5) (1 # 2)).
  - reflexivity.
  - repeat constructor; discriminate.
Defined.


Lemma playback_prop_false_stops_the_loop_witness :
  Observe.pending Observe.videoPlaying = [2%nat] /\
  Observe.pending
    (Controls.playbackEffect (3 # 5) (1 # 2)
       (Observe.sampleOptions MediaUtils.Video) false true true
       Observe.videoPlaying) = [].
Proof.
  split; [vm_compute; reflexivity|].
  apply (playback_prop_false_stops_the_loop (3 # 5) (1 # 2)
           (Observe.sampleOptions MediaUtils.Video) Observe.videoPlaying true true).
  - reflexivity.
  - vm_compute. discriminate.
  - right. vm_compute. reflexivity.
  - intros v Ev Hp. vm_compute in Ev. inversion Ev; subst v. discriminate.
Defined.

Lemma video_effect_rerun_stops_the_loop_witness :
  Observe.pending Observe.videoPlaying = [2%nat] /\
  Observe.pending
    (Controls.rerunVideoEffect (3 # 5) (1 # 2)
       (Observe.sampleOptions MediaUtils.Video) Observe.videoPlaying) = [] /\
  Observe.draws
    (Hook.run (3 # 5) (1 # 2) (Observe.sampleOptions MediaUtils.Video)
       [Hook.AnimationFrame (Observe.sampleClock 32);
        Hook.AnimationFrame (Observe.sampleClock 48)]
       (Controls.rerunVideoEffect (3 # 5) (1 # 2)
          (Observe.sampleOptions MediaUtils.Video) Observe.videoPlaying))
  = Observe.draws Observe.videoPlaying.
Proof.
  split; [vm_compute; reflexivity|].
  destruct (video_effect_rerun_stops_the_loop (3 # 5) (1 # 2)
              (Observe.sampleOptions MediaUtils.Video) Observe.videoPlaying
              [Hook.AnimationFrame (Observe.sampleClock 32);
               Hook.AnimationFrame (Observe.sampleClock 48)])
    as (H1 & H2 & _).
  - reflexivity.
  - vm_compute. discriminate.
  - right. vm_compute. reflexivity.
  - simpl. intros [H | [H | []]]; discriminate.
  - split; [exact H1 | exact H2].
Defined.
